(** * Poll and vote server actions of ALX Polly

    A shallow embedding of [app/lib/actions/poll-actions.ts]
    ([createPoll], [getUserPolls], [getPollById], [submitVote],
    [deletePoll], [updatePoll]) together with the part of the Supabase
    client the actions talk to.

    The actions are asynchronous: every [await] on the Supabase client is a
    point where the request is suspended.  An action is therefore embedded
    as a tree of client calls ([Action]); [run] interprets such a tree
    against the two tables of the README schema ([polls], [votes]), a
    per-call description of what the engine does ([Engine]: a fault, the
    generated row id, the clock) and the effect other requests have on the
    tables while this one is suspended ([others]). *)

From Stdlib Require Import String Ascii Bool Arith NArith ZArith Lia List.
Import ListNotations.
From Stdlib Require Import Permutation Sorted.

Set Implicit Arguments.

(* ================================================================== *)
(** ** JavaScript strings *)
(* ================================================================== *)

(** A JavaScript string is a sequence of UTF-16 code units; [length] is the
    number of code units, as [String.prototype.length] is. *)
Definition jsstring := list N.

(** A literal of the source, as code units. *)
Definition js (s : string) : jsstring :=
  map N_of_ascii (list_ascii_of_string s).

Fixpoint str_eqb (a b : jsstring) : bool :=
  match a, b with
  | [], [] => true
  | x :: a', y :: b' => N.eqb x y && str_eqb a' b'
  | _, _ => false
  end.

(** [Boolean(s)] for a string: only the empty string is falsy. *)
Definition Boolean (s : jsstring) : bool :=
  match s with
  | [] => false
  | _ :: _ => true
  end.

(** The code units [String.prototype.trim] strips: ECMAScript WhiteSpace
    (TAB, VT, FF, SP, NBSP, ZWNBSP and category Zs) and LineTerminator
    (LF, CR, LS, PS). *)
Definition isWhiteSpace (c : N) : bool :=
  ((9 <=? c) && (c <=? 13) || (c =? 32) || (c =? 160) || (c =? 5760)
   || (8192 <=? c) && (c <=? 8202) || (c =? 8232) || (c =? 8233)
   || (c =? 8239) || (c =? 8287) || (c =? 12288) || (c =? 65279))%N.

Fixpoint trimStart (s : jsstring) : jsstring :=
  match s with
  | [] => []
  | c :: rest => if isWhiteSpace c then trimStart rest else s
  end.

Definition trimEnd (s : jsstring) : jsstring := rev (trimStart (rev s)).

Definition trim (s : jsstring) : jsstring := trimEnd (trimStart s).

(* ================================================================== *)
(** ** Form data *)
(* ================================================================== *)

(** [FormData] with string entries: an ordered list of (name, value)
    pairs in which a name may occur several times. *)
Module FormData.
Definition t := list (jsstring * jsstring).

(** [formData.get(name)]: the first value under [name], or [null]. *)
Fixpoint get (formData : t) (name : jsstring) : option jsstring :=
  match formData with
  | [] => None
  | (n, v) :: rest => if str_eqb n name then Some v else get rest name
  end.

(** [formData.getAll(name)]: every value under [name], in order. *)
Definition getAll (formData : t) (name : jsstring) : list jsstring :=
  map snd (filter (fun e => str_eqb (fst e) name) formData).
End FormData.

(* ================================================================== *)
(** ** Rows, errors and responses *)
(* ================================================================== *)

(** A row of [public.polls]. *)
Module Poll.
Record row := {
  id : jsstring;
  user_id : jsstring;
  question : jsstring;
  options : list jsstring;
  created_at : N
}.
End Poll.

(** A row of [public.votes]. *)
Module Vote.
Record row := {
  id : jsstring;
  poll_id : jsstring;
  user_id : jsstring;
  option_index : Z;
  created_at : N
}.
End Vote.

(** The error object of a Supabase table call; the actions read [code] and
    [message] only. *)
Module PostgrestError.
Record t := { code : jsstring; message : jsstring }.
End PostgrestError.

(** [{ data: { user }, error }] of [supabase.auth.getUser()]; [user] is
    the user's id when a user is resolved. *)
Module AuthResponse.
Record t := { user : option jsstring; error : option jsstring }.
End AuthResponse.

(** [{ data, error }] of a table read. *)
Module Resp.
Record t (A : Type) := { data : option A; error : option PostgrestError.t }.
Arguments data {A} _.
Arguments error {A} _.
End Resp.

Definition PGRST116 : PostgrestError.t :=
  {| PostgrestError.code := js "PGRST116";
     PostgrestError.message :=
       js "JSON object requested, multiple (or no) rows returned" |}.

(** [.single()]: exactly one row is expected; none or several is the error
    [PGRST116]. *)
Definition single {A} (r : Resp.t (list A)) : Resp.t A :=
  match Resp.error r with
  | Some e => {| Resp.data := None; Resp.error := Some e |}
  | None =>
      match Resp.data r with
      | Some [x] => {| Resp.data := Some x; Resp.error := None |}
      | _ => {| Resp.data := None; Resp.error := Some PGRST116 |}
      end
  end.

(* ================================================================== *)
(** ** The tables and the client calls *)
(* ================================================================== *)

Record World := {
  polls : list Poll.row;
  votes : list Vote.row;
  revalidated : list jsstring
}.

(** [.eq(column, value)] on [polls] and on [votes]. *)
Inductive PollFilter :=
| poll_id_eq (v : jsstring)
| poll_user_id_eq (v : jsstring).

Inductive VoteFilter :=
| vote_poll_id_eq (v : jsstring)
| vote_user_id_eq (v : jsstring).

Definition poll_matches (fs : list PollFilter) (r : Poll.row) : bool :=
  forallb (fun f => match f with
                    | poll_id_eq v => str_eqb (Poll.id r) v
                    | poll_user_id_eq v => str_eqb (Poll.user_id r) v
                    end) fs.

Definition vote_matches (fs : list VoteFilter) (r : Vote.row) : bool :=
  forallb (fun f => match f with
                    | vote_poll_id_eq v => str_eqb (Vote.poll_id r) v
                    | vote_user_id_eq v => str_eqb (Vote.user_id r) v
                    end) fs.

Arguments poll_matches : simpl never.
Arguments vote_matches : simpl never.

(** The calls the actions make, indexed by what the call resolves to. *)
Inductive Cmd : Type -> Type :=
| auth_getUser : Cmd AuthResponse.t
| polls_insert (user_id question : jsstring) (options : list jsstring)
  : Cmd (option PostgrestError.t)
| polls_select (filters : list PollFilter) (order_created_at_desc : bool)
  : Cmd (Resp.t (list Poll.row))
| polls_update (question : jsstring) (options : list jsstring)
               (filters : list PollFilter)
  : Cmd (option PostgrestError.t)
| polls_delete (filters : list PollFilter) : Cmd (option PostgrestError.t)
| votes_select (filters : list VoteFilter) : Cmd (Resp.t (list Vote.row))
| votes_insert (poll_id user_id : jsstring) (option_index : Z)
  : Cmd (option PostgrestError.t)
| revalidatePath (path : jsstring) : Cmd unit.

(** What the storage engine contributes to one call: whether it fails the
    call outright ([fault]), and for an insert the defaults of the schema,
    [uuid_generate_v4()] and [now()]. *)
Record Engine := {
  fault : option PostgrestError.t;
  new_id : jsstring;
  now : N
}.

Definition unique_violation (constraint : string) : PostgrestError.t :=
  {| PostgrestError.code := js "23505";
     PostgrestError.message :=
       js "duplicate key value violates unique constraint " ++ js constraint |}.

Definition foreign_key_violation (constraint : string) : PostgrestError.t :=
  {| PostgrestError.code := js "23503";
     PostgrestError.message :=
       js "insert or update on table violates foreign key constraint "
       ++ js constraint |}.

(** [ORDER BY created_at DESC], as a stable insertion sort. *)
Fixpoint insert_desc (r : Poll.row) (l : list Poll.row) : list Poll.row :=
  match l with
  | [] => [r]
  | x :: rest =>
      if (Poll.created_at x <=? Poll.created_at r)%N then r :: l
      else x :: insert_desc r rest
  end.

Definition order_desc (l : list Poll.row) : list Poll.row :=
  fold_right insert_desc [] l.

Definition set_polls (w : World) (ps : list Poll.row) : World :=
  {| polls := ps; votes := votes w; revalidated := revalidated w |}.

Definition set_votes (w : World) (vs : list Vote.row) : World :=
  {| polls := polls w; votes := vs; revalidated := revalidated w |}.

(** [ON DELETE CASCADE] of [votes.poll_id]: the votes that survive the
    removal of the poll rows [gone]. *)
Definition cascade (gone : list Poll.row) (vs : list Vote.row) : list Vote.row :=
  filter (fun v => negb (existsb (fun p => str_eqb (Poll.id p) (Vote.poll_id v))
                                 gone)) vs.

(** One call against the tables.  A faulted call changes nothing.  An
    update or a delete whose filters match no row is not an error: it
    affects zero rows and resolves with [error: null]. *)
Definition handle {A} (c : Cmd A) (session : AuthResponse.t) (e : Engine)
    (w : World) : A * World :=
  match c in Cmd T return T * World with
  | auth_getUser => (session, w)
  | polls_insert uid q opts =>
      match fault e with
      | Some err => (Some err, w)
      | None =>
          if existsb (fun p => str_eqb (Poll.id p) (new_id e)) (polls w)
          then (Some (unique_violation "polls_pkey"), w)
          else (None,
                set_polls w (polls w ++
                  [{| Poll.id := new_id e; Poll.user_id := uid;
                      Poll.question := q; Poll.options := opts;
                      Poll.created_at := now e |}]))
      end
  | polls_select fs ordered =>
      match fault e with
      | Some err => ({| Resp.data := None; Resp.error := Some err |}, w)
      | None =>
          let rows := filter (poll_matches fs) (polls w) in
          ({| Resp.data := Some (if ordered then order_desc rows else rows);
              Resp.error := None |}, w)
      end
  | polls_update q opts fs =>
      match fault e with
      | Some err => (Some err, w)
      | None =>
          (None,
           set_polls w
             (map (fun p =>
                     if poll_matches fs p
                     then {| Poll.id := Poll.id p;
                             Poll.user_id := Poll.user_id p;
                             Poll.question := q; Poll.options := opts;
                             Poll.created_at := Poll.created_at p |}
                     else p) (polls w)))
      end
  | polls_delete fs =>
      match fault e with
      | Some err => (Some err, w)
      | None =>
          (None,
           {| polls := filter (fun p => negb (poll_matches fs p)) (polls w);
              votes := cascade (filter (poll_matches fs) (polls w)) (votes w);
              revalidated := revalidated w |})
      end
  | votes_select fs =>
      match fault e with
      | Some err => ({| Resp.data := None; Resp.error := Some err |}, w)
      | None =>
          ({| Resp.data := Some (filter (vote_matches fs) (votes w));
              Resp.error := None |}, w)
      end
  | votes_insert pid uid idx =>
      match fault e with
      | Some err => (Some err, w)
      | None =>
          if negb (existsb (fun p => str_eqb (Poll.id p) pid) (polls w))
          then (Some (foreign_key_violation "votes_poll_id_fkey"), w)
          else if existsb (vote_matches [vote_poll_id_eq pid; vote_user_id_eq uid])
                          (votes w)
          then (Some (unique_violation "unique_vote_per_user_per_poll"), w)
          else if existsb (fun v => str_eqb (Vote.id v) (new_id e)) (votes w)
          then (Some (unique_violation "votes_pkey"), w)
          else (None,
                set_votes w (votes w ++
                  [{| Vote.id := new_id e; Vote.poll_id := pid;
                      Vote.user_id := uid; Vote.option_index := idx;
                      Vote.created_at := now e |}]))
      end
  | revalidatePath path =>
      (tt, {| polls := polls w; votes := votes w;
              revalidated := revalidated w ++ [path] |})
  end.

(* ================================================================== *)
(** ** Actions and their runs *)
(* ================================================================== *)

(** An async function of the source: it returns, or awaits a call and
    continues with what the call resolved to. *)
Inductive Action (R : Type) : Type :=
| Return (r : R)
| Await (A : Type) (c : Cmd A) (k : A -> Action R).

Arguments Return {R} r.
Arguments Await {R A} c k.

Notation "'await' x '<-' c ';;' k" := (Await c (fun x => k))
  (at level 10, x name, c at level 100, k at level 200, only parsing).

(** What one request sees of its surroundings: the session behind
    [auth.getUser()], the engine's part in its [n]-th call, and what other
    requests did to the tables just before its [n]-th call. *)
Record Env := {
  session : AuthResponse.t;
  engine : nat -> Engine;
  others : nat -> World -> World
}.

(** No other request runs while this one is suspended. *)
Definition alone : nat -> World -> World := fun _ w => w.

Inductive Event : Type :=
| Ev (A : Type) (c : Cmd A) (a : A).

Arguments Ev {A} c a.

Record Outcome (R : Type) := {
  value : R;
  final : World;
  trace : list Event
}.

Fixpoint run_from {R} (p : Action R) (env : Env) (n : nat) (w : World)
  : Outcome R :=
  match p with
  | Return r => {| value := r; final := w; trace := [] |}
  | Await c k =>
      let '(a, w') := handle c (session env) (engine env n) (others env n w) in
      let o := run_from (k a) env (S n) w' in
      {| value := value o; final := final o; trace := Ev c a :: trace o |}
  end.

Definition run {R} (p : Action R) (env : Env) (w : World) : Outcome R :=
  run_from p env 0 w.

(* ================================================================== *)
(** ** The server actions *)
(* ================================================================== *)

(** [{ error }], the result of [createPoll], [submitVote], [deletePoll]
    and [updatePoll]. *)
Module Act.
Record t := { error : option jsstring }.
End Act.

(** [{ polls, error }], the result of [getUserPolls]. *)
Module PollsResult.
Record t := { polls : list Poll.row; error : option jsstring }.
End PollsResult.

(** [{ poll, error }], the result of [getPollById]. *)
Module PollResult.
Record t := { poll : option Poll.row; error : option jsstring }.
End PollResult.

Definition failure (message : string) : Act.t :=
  {| Act.error := Some (js message) |}.

Definition success : Act.t := {| Act.error := None |}.

(** The loop [for (const option of options)] of [createPoll] and
    [updatePoll]: the first offending option returns from the action. *)
Fixpoint for_of_options (options : list jsstring) : option Act.t :=
  match options with
  | [] => None
  | option :: rest =>
      if (length (trim option) =? 0) || (100 <? length option)
      then Some (failure "Each option must be between 1 and 100 characters.")
      else for_of_options rest
  end.

Definition createPoll (formData : FormData.t) : Action Act.t :=
  let question := FormData.get formData (js "question") in
  let options := filter Boolean (FormData.getAll formData (js "options")) in
  match question with
  | None => Return (failure "Poll question must be between 1 and 255 characters.")
  | Some question =>
  if negb (Boolean question) || (length (trim question) =? 0)
     || (255 <? length question)
  then Return (failure "Poll question must be between 1 and 255 characters.")
  else if length options <? 2
  then Return (failure "Please provide at least two options.")
  else
  match for_of_options options with
  | Some r => Return r
  | None =>
  await auth <- auth_getUser ;;
  match AuthResponse.error auth with
  | Some _ => Return (failure "Authentication failed.")
  | None =>
  match AuthResponse.user auth with
  | None => Return (failure "You must be logged in to create a poll.")
  | Some user_id =>
  await error <- polls_insert user_id question options ;;
  match error with
  | Some _ => Return (failure "Failed to create poll.")
  | None =>
  await _ <- revalidatePath (js "/polls") ;;
  Return success
  end end end end end.

Definition getUserPolls : Action PollsResult.t :=
  await auth <- auth_getUser ;;
  match AuthResponse.user auth with
  | None => Return {| PollsResult.polls := [];
                      PollsResult.error := Some (js "Not authenticated") |}
  | Some user_id =>
  await r <- polls_select [poll_user_id_eq user_id] true ;;
  match Resp.error r with
  | Some error => Return {| PollsResult.polls := [];
                            PollsResult.error :=
                              Some (PostgrestError.message error) |}
  | None => Return {| PollsResult.polls :=
                        match Resp.data r with Some data => data | None => [] end;
                      PollsResult.error := None |}
  end end.

Definition getPollById (id : jsstring) : Action PollResult.t :=
  await auth <- auth_getUser ;;
  match AuthResponse.error auth, AuthResponse.user auth with
  | None, Some user_id =>
  await rows <- polls_select [poll_id_eq id; poll_user_id_eq user_id] false ;;
  let r := single rows in
  match Resp.error r with
  | Some _ => Return {| PollResult.poll := None;
                        PollResult.error := Some (js "Failed to retrieve poll.") |}
  | None => Return {| PollResult.poll := Resp.data r; PollResult.error := None |}
  end
  | _, _ => Return {| PollResult.poll := None;
                      PollResult.error :=
                        Some (js "You must be logged in to view this poll.") |}
  end.

(** [optionIndex] is taken as an integer; [typeof pollId !== 'string'] is
    excluded by the parameter's type. *)
Definition submitVote (pollId : jsstring) (optionIndex : Z) : Action Act.t :=
  await auth <- auth_getUser ;;
  match AuthResponse.user auth with
  | None => Return (failure "You must be logged in to vote.")
  | Some user_id =>
  if negb (Boolean pollId) then Return (failure "Invalid poll ID.")
  else
  await rows <- polls_select [poll_id_eq pollId] false ;;
  let r := single rows in
  match Resp.error r, Resp.data r with
  | None, Some poll =>
  if (optionIndex <? 0)%Z
     || (optionIndex >=? Z.of_nat (length (Poll.options poll)))%Z
  then Return (failure "Invalid option selected.")
  else
  await found <- votes_select [vote_poll_id_eq pollId; vote_user_id_eq user_id] ;;
  let v := single found in
  if match Resp.error v with
     | Some existingVoteError =>
         negb (str_eqb (PostgrestError.code existingVoteError) (js "PGRST116"))
     | None => false
     end
  then Return (failure "Failed to check for existing vote.")
  else
  match Resp.data v with
  | Some _ => Return (failure "You have already voted on this poll.")
  | None =>
  await error <- votes_insert pollId user_id optionIndex ;;
  match error with
  | Some _ => Return (failure "Failed to submit vote.")
  | None => Return success
  end end
  | _, _ => Return (failure "Poll not found or an error occurred.")
  end end.

Definition deletePoll (id : jsstring) : Action Act.t :=
  await auth <- auth_getUser ;;
  match AuthResponse.error auth, AuthResponse.user auth with
  | None, Some user_id =>
  await error <- polls_delete [poll_id_eq id; poll_user_id_eq user_id] ;;
  match error with
  | Some _ => Return (failure "Failed to delete poll.")
  | None =>
  await _ <- revalidatePath (js "/polls") ;;
  Return success
  end
  | _, _ => Return (failure "You must be logged in to delete a poll.")
  end.

Definition updatePoll (pollId : jsstring) (formData : FormData.t)
  : Action Act.t :=
  let question := FormData.get formData (js "question") in
  let options := filter Boolean (FormData.getAll formData (js "options")) in
  match question with
  | None => Return (failure "Poll question must be between 1 and 255 characters.")
  | Some question =>
  if negb (Boolean question) || (length (trim question) =? 0)
     || (255 <? length question)
  then Return (failure "Poll question must be between 1 and 255 characters.")
  else if length options <? 2
  then Return (failure "Please provide at least two options.")
  else
  match for_of_options options with
  | Some r => Return r
  | None =>
  await auth <- auth_getUser ;;
  match AuthResponse.error auth with
  | Some _ => Return (failure "Authentication failed.")
  | None =>
  match AuthResponse.user auth with
  | None => Return (failure "You must be logged in to update a poll.")
  | Some user_id =>
  await error <- polls_update question options
                   [poll_id_eq pollId; poll_user_id_eq user_id] ;;
  match error with
  | Some _ => Return (failure "Failed to update poll.")
  | None => Return success
  end end end end end.

(* ================================================================== *)
(** ** Messages and input conditions used in the statements *)
(* ================================================================== *)

(** The validation messages of [createPoll] and [updatePoll]. *)
Definition InvalidQuestion : jsstring :=
  js "Poll question must be between 1 and 255 characters.".
Definition InsufficientOptions : jsstring :=
  js "Please provide at least two options.".
Definition InvalidOption : jsstring :=
  js "Each option must be between 1 and 100 characters.".

Definition ValidationError (m : jsstring) : Prop :=
  m = InvalidQuestion \/ m = InsufficientOptions \/ m = InvalidOption.

(** The error kind Unauthenticated: a message "You must be logged in to
    ...". *)
Definition Unauthenticated (m : jsstring) : Prop :=
  exists rest, m = js "You must be logged in to " ++ rest.

Definition DuplicateVote : jsstring := js "You have already voted on this poll.".

(** Every message that occurs as a literal in the actions. *)
Definition user_safe_messages : list jsstring :=
  [ InvalidQuestion; InsufficientOptions; InvalidOption;
    js "Authentication failed.";
    js "You must be logged in to create a poll.";
    js "Failed to create poll.";
    js "Not authenticated";
    js "You must be logged in to view this poll.";
    js "Failed to retrieve poll.";
    js "You must be logged in to vote.";
    js "Invalid poll ID.";
    js "Poll not found or an error occurred.";
    js "Invalid option selected.";
    js "Failed to check for existing vote.";
    DuplicateVote;
    js "Failed to submit vote.";
    js "You must be logged in to delete a poll.";
    js "Failed to delete poll.";
    js "You must be logged in to update a poll.";
    js "Failed to update poll." ].

(** A result carries no error, or one of the literal messages. *)
Definition generic (e : option jsstring) : Prop :=
  match e with
  | None => True
  | Some m => In m user_safe_messages
  end.

(** The messages [submitVote] can return, in the order of its returns. *)
Definition submitVote_messages : list jsstring :=
  [ js "You must be logged in to vote.";
    js "Invalid poll ID.";
    js "Poll not found or an error occurred.";
    js "Invalid option selected.";
    js "Failed to check for existing vote.";
    DuplicateVote;
    js "Failed to submit vote." ].

(** The entries of the form the actions read. *)
Definition question_of (formData : FormData.t) : option jsstring :=
  FormData.get formData (js "question").

Definition options_of (formData : FormData.t) : list jsstring :=
  FormData.getAll formData (js "options").

(** An entry that is empty or consists of white space only. *)
Definition blank (s : jsstring) : bool := length (trim s) =? 0.

(** What the two actions accept, in terms of lengths: the question is not
    blank and has at most 255 code units untrimmed; at least two non-empty
    options were submitted, and each of these is not blank and has at most
    100 code units untrimmed. *)
Definition question_ok (q : jsstring) : Prop :=
  1 <= length (trim q) /\ length q <= 255.

Definition option_ok (o : jsstring) : Prop :=
  1 <= length (trim o) /\ length o <= 100.

Definition accepted (formData : FormData.t) : Prop :=
  exists q,
    question_of formData = Some q /\ question_ok q /\
    2 <= length (filter Boolean (options_of formData)) /\
    Forall option_ok (filter Boolean (options_of formData)).

(** A request that runs with no other request in between. *)
Definition isolated (s : AuthResponse.t) (g : nat -> Engine) : Env :=
  {| session := s; engine := g; others := alone |}.

(** The outcome of a run that returns before its first call. *)
Definition returned {R} (r : R) (w : World) : Outcome R :=
  {| value := r; final := w; trace := [] |}.

(** The error of an accepted form is decided by the session and by the
    single write. *)
Definition after_validation (action : string) (s : AuthResponse.t)
    (e : option jsstring) : Prop :=
  (AuthResponse.error s <> None /\ e = Some (js "Authentication failed.")) \/
  (AuthResponse.error s = None /\ AuthResponse.user s = None /\
   e = Some (js "You must be logged in to " ++ js action ++ js " a poll.")) \/
  (AuthResponse.error s = None /\ AuthResponse.user s <> None /\
   (e = Some (js "Failed to " ++ js action ++ js " poll.") \/ e = None)).

(** The number of vote rows of one principal on one poll. *)
Definition votes_of (pollId user_id : jsstring) (w : World) : nat :=
  length (filter (vote_matches [vote_poll_id_eq pollId; vote_user_id_eq user_id])
                 (votes w)).

(** The constraint [unique_vote_per_user_per_poll] as a property of the
    tables. *)
Definition votes_unique (w : World) : Prop :=
  forall pollId user_id, votes_of pollId user_id w <= 1.

(** The replies the trace of a run records for its inserts into [votes]. *)
Definition vote_insert_reply (ev : Event) : option (option PostgrestError.t) :=
  match ev with
  | Ev c a =>
      match c in Cmd T return T -> option (option PostgrestError.t) with
      | votes_insert _ _ _ => fun reply => Some reply
      | _ => fun _ => None
      end a
  end.

Fixpoint vote_insert_replies (tr : list Event) : list (option PostgrestError.t) :=
  match tr with
  | [] => []
  | ev :: rest =>
      match vote_insert_reply ev with
      | Some reply => reply :: vote_insert_replies rest
      | None => vote_insert_replies rest
      end
  end.

(* ================================================================== *)
(** ** Sample sessions, engines, forms and tables *)
(* ================================================================== *)

Definition signed_in (user_id : string) : AuthResponse.t :=
  {| AuthResponse.user := Some (js user_id); AuthResponse.error := None |}.

Definition signed_out : AuthResponse.t :=
  {| AuthResponse.user := None; AuthResponse.error := None |}.

(** An engine that never faults; its [n]-th call generates the id
    [row-n] at time [n]. *)
Definition quiet : nat -> Engine :=
  fun n => {| fault := None;
              new_id := js "row-" ++ [48 + N.of_nat n]%N;
              now := N.of_nat n |}.

Definition form (question : jsstring) (options : list jsstring) : FormData.t :=
  (js "question", question) :: map (fun o => (js "options", o)) options.

Definition no_polls : World :=
  {| polls := []; votes := []; revalidated := [] |}.

(** One letter followed by 255 spaces: 256 code units, 1 after trimming. *)
Definition padded_question : jsstring := js "a" ++ repeat 32%N 255.

(** The engine [g], four calls later: it generates other ids. *)
Definition later (g : nat -> Engine) : nat -> Engine := fun n => g (4 + n).

(** An engine that fails every call with a schema error. *)
Definition undefined_table : PostgrestError.t :=
  {| PostgrestError.code := js "42P01";
     PostgrestError.message := js "relation public.polls does not exist" |}.

Definition broken : nat -> Engine :=
  fun n => {| fault := Some undefined_table; new_id := []; now := 0 |}.

(** The poll [p1] of alice, with no votes. *)
Definition alices_poll : World :=
  {| polls := [{| Poll.id := js "p1"; Poll.user_id := js "alice";
                  Poll.question := js "Color?";
                  Poll.options := [js "Red"; js "Blue"];
                  Poll.created_at := 1 |}];
     votes := [];
     revalidated := [] |}.

(** A second request of bob, voting for option 1 of [p1], run to its end. *)
Definition rival_vote (w : World) : World :=
  final (run (submitVote (js "p1") 1) (isolated (signed_in "bob") quiet) w).

(** A request of bob during which [rival_vote] runs between the check for
    an existing vote (call 2) and the insert (call 3). *)
Definition racing : Env :=
  {| session := signed_in "bob";
     engine := later quiet;
     others := fun n w => if n =? 3 then rival_vote w else w |}.

(* ================================================================== *)
(** ** Table constraints and stored-poll rules used in the statements *)
(* ================================================================== *)

(** [polls_pkey]: no two rows of [polls] share an id. *)
Definition polls_pkey (w : World) : Prop := NoDup (map Poll.id (polls w)).

(** [votes.poll_id REFERENCES polls(id)]: every vote belongs to a row of
    [polls]. *)
Definition votes_attached (w : World) : Prop :=
  forall v, In v (votes w) ->
            exists p, In p (polls w) /\ Poll.id p = Vote.poll_id v.


(** The rules of [createPoll] and [updatePoll], read on a stored row. *)
Definition poll_well_formed (p : Poll.row) : Prop :=
  question_ok (Poll.question p) /\
  2 <= length (Poll.options p) /\
  Forall option_ok (Poll.options p).

(** The order of [getUserPolls]: a row is not older than the next. *)
Definition newest_first (a b : Poll.row) : Prop :=
  (Poll.created_at b <= Poll.created_at a)%N.

(** The rows of [polls] one principal owns, in table order. *)
Definition polls_of (user_id : jsstring) (w : World) : list Poll.row :=
  filter (fun p => str_eqb (Poll.user_id p) user_id) (polls w).

(** Three polls: [p1] and [p3] of alice, [p2] of bob, created in this
    order, and bob's vote for option 0 of [p1]. *)
Definition three_polls : World :=
  {| polls := [{| Poll.id := js "p1"; Poll.user_id := js "alice";
                  Poll.question := js "Color?";
                  Poll.options := [js "Red"; js "Blue"];
                  Poll.created_at := 1 |};
               {| Poll.id := js "p2"; Poll.user_id := js "bob";
                  Poll.question := js "Tea or coffee?";
                  Poll.options := [js "Tea"; js "Coffee"];
                  Poll.created_at := 2 |};
               {| Poll.id := js "p3"; Poll.user_id := js "alice";
                  Poll.question := js "Cats?";
                  Poll.options := [js "Yes"; js "No"; js "Both"];
                  Poll.created_at := 3 |}];
     votes := [{| Vote.id := js "v1"; Vote.poll_id := js "p1";
                  Vote.user_id := js "bob"; Vote.option_index := 0;
                  Vote.created_at := 4 |}];
     revalidated := [] |}.

(* ================================================================== *)
(** ** The edit page and the form components *)
(* ================================================================== *)

(** An action awaited by another async function. *)
Fixpoint bind {R S} (p : Action R) (f : R -> Action S) : Action S :=
  match p with
  | Return r => f r
  | Await c k => Await c (fun a => bind (k a) f)
  end.

(** Truthiness of an [error] field: [null] and the empty string are
    falsy. *)
Definition truthy (e : option jsstring) : bool :=
  match e with
  | Some m => Boolean m
  | None => false
  end.

(** What [EditPollPage] renders: the not-found page ([notFound()] does not
    return) or the edit form for a poll. *)
Inductive Page :=
| notFound
| EditPollForm (poll : Poll.row).

Definition EditPollPage (params_id : jsstring) : Action Page :=
  bind (getPollById params_id) (fun r =>
    match PollResult.poll r with
    | None => Return notFound
    | Some poll =>
        if truthy (PollResult.error r) then Return notFound
        else Return (EditPollForm poll)
    end).

(** [opts.map((opt, i) => ...)] and [opts.filter((_, i) => ...)], with the
    index of the first element as an argument. *)
Fixpoint map_index {A B} (f : A -> nat -> B) (i : nat) (l : list A) : list B :=
  match l with
  | [] => []
  | x :: rest => f x i :: map_index f (S i) rest
  end.

Fixpoint filter_index {A} (keep : A -> nat -> bool) (i : nat) (l : list A)
  : list A :=
  match l with
  | [] => []
  | x :: rest =>
      if keep x i then x :: filter_index keep (S i) rest
      else filter_index keep (S i) rest
  end.

(** The handlers of the option fields of [PollCreateForm] and
    [EditPollForm], as the change they make to the [options] state.
    [removeOption] reads the length from the state of the render it
    belongs to ([options]) and updates the state at hand ([opts]). *)
Definition handleOptionChange (idx : nat) (value : jsstring)
    (opts : list jsstring) : list jsstring :=
  map_index (fun opt i => if i =? idx then value else opt) 0 opts.

Definition addOption (opts : list jsstring) : list jsstring := opts ++ [js ""].

Definition removeOption (options : list jsstring) (idx : nat)
    (opts : list jsstring) : list jsstring :=
  if 2 <? length options
  then filter_index (fun _ i => negb (i =? idx)) 0 opts
  else opts.

(** What a user does to the option fields between two renders. *)
Inductive OptionEvent :=
| change_option (idx : nat) (value : jsstring)
| add_option
| remove_option (idx : nat).

Definition on_event (options : list jsstring) (ev : OptionEvent)
  : list jsstring :=
  match ev with
  | change_option idx value => handleOptionChange idx value options
  | add_option => addOption options
  | remove_option idx => removeOption options idx options
  end.

(** [formData.set], [formData.delete] and [formData.append]. *)
Fixpoint FormData_delete (formData : FormData.t) (name : jsstring)
  : FormData.t :=
  match formData with
  | [] => []
  | (n, v) :: rest =>
      if str_eqb n name then FormData_delete rest name
      else (n, v) :: FormData_delete rest name
  end.

Fixpoint FormData_set (formData : FormData.t) (name value : jsstring)
  : FormData.t :=
  match formData with
  | [] => [(name, value)]
  | (n, v) :: rest =>
      if str_eqb n name then (name, value) :: FormData_delete rest name
      else (n, v) :: FormData_set rest name value
  end.

Definition FormData_append (formData : FormData.t) (name value : jsstring)
  : FormData.t :=
  formData ++ [(name, value)].

(** The form data [EditPollForm] submits: the browser's entries with
    [question] set from the state and [options] replaced by the state. *)
Definition EditPollForm_formData (question : jsstring)
    (options : list jsstring) (formData : FormData.t) : FormData.t :=
  fold_left (fun fd opt => FormData_append fd (js "options") opt) options
            (FormData_delete (FormData_set formData (js "question") question)
                             (js "options")).

(** The state of a form after its action: the message under the form,
    the success banner, and the path of the scheduled redirect. *)
Module FormView.
Record t := {
  error : option jsstring;
  success : bool;
  redirect : option jsstring
}.
End FormView.

(** [if (res?.error) setError(res.error) else { setSuccess(true);
    setTimeout(() => router.push("/polls"), 1200) }], after
    [setError(null); setSuccess(false)]. *)
Definition after_action (res : Act.t) : FormView.t :=
  if truthy (Act.error res)
  then {| FormView.error := Act.error res; FormView.success := false;
          FormView.redirect := None |}
  else {| FormView.error := None; FormView.success := true;
          FormView.redirect := Some (js "/polls") |}.

Definition PollCreateForm_action (formData : FormData.t) : Action FormView.t :=
  bind (createPoll formData) (fun res => Return (after_action res)).

Definition EditPollForm_action (poll_id question : jsstring)
    (options : list jsstring) (formData : FormData.t) : Action FormView.t :=
  bind (updatePoll poll_id (EditPollForm_formData question options formData))
       (fun res => Return (after_action res)).

(* ================================================================== *)
(** ** Strings *)
(* ================================================================== *)

Lemma str_eqb_eq (a b : jsstring) : str_eqb a b = true <-> a = b.
Proof.
  revert b; induction a as [|x a IH]; intros [|y b]; simpl; split;
    try congruence; try discriminate.
  - rewrite andb_true_iff, N.eqb_eq, IH. intros [-> ->]. reflexivity.
  - intros H. injection H as -> ->. rewrite N.eqb_refl. now apply IH.
Qed.

Lemma str_eqb_refl (a : jsstring) : str_eqb a a = true.
Proof. now apply str_eqb_eq. Qed.

Lemma str_eqb_neq (a b : jsstring) : str_eqb a b = false <-> a <> b.
Proof.
  rewrite <- str_eqb_eq. destruct (str_eqb a b); split; congruence.
Qed.

Lemma length_trimStart (s : jsstring) : length (trimStart s) <= length s.
Proof.
  induction s as [|c s IH]; simpl; [lia|].
  destruct (isWhiteSpace c); simpl; lia.
Qed.

Lemma length_trim (s : jsstring) : length (trim s) <= length s.
Proof.
  unfold trim, trimEnd. rewrite length_rev.
  etransitivity; [apply length_trimStart|].
  rewrite length_rev. apply length_trimStart.
Qed.

Lemma blank_empty (s : jsstring) : Boolean s = false -> blank s = true.
Proof. destruct s; [reflexivity | discriminate]. Qed.

(* ================================================================== *)
(** ** The validation that opens [createPoll] and [updatePoll] *)
(* ================================================================== *)

Lemma question_test (q : jsstring) :
  negb (Boolean q) || (length (trim q) =? 0) || (255 <? length q) = false
  <-> question_ok q.
Proof.
  unfold question_ok.
  rewrite !orb_false_iff, negb_false_iff, Nat.eqb_neq, Nat.ltb_ge.
  split; [lia|]. intros [Ht Hl]. repeat split; try lia.
  destruct q; [simpl in Ht; lia | reflexivity].
Qed.

Lemma for_of_options_Some (l : list jsstring) (r : Act.t) :
  for_of_options l = Some r -> r = {| Act.error := Some InvalidOption |}.
Proof.
  induction l as [|o l IH]; simpl; [discriminate|].
  destruct (_ || _); [|exact IH]. intros H; injection H as <-. reflexivity.
Qed.

Lemma for_of_options_None (l : list jsstring) :
  for_of_options l = None <-> Forall option_ok l.
Proof.
  induction l as [|o l IH]; simpl.
  - split; [constructor | reflexivity].
  - destruct (_ || _) eqn:E.
    + split; [discriminate|]. intros H. inversion H as [|? ? [Ht Hl] _]; subst.
      rewrite orb_true_iff, Nat.eqb_eq, Nat.ltb_lt in E. lia.
    + rewrite orb_false_iff, Nat.eqb_neq, Nat.ltb_ge in E.
      rewrite IH. split.
      * intros H. constructor; [unfold option_ok; lia | exact H].
      * intros H. now inversion H.
Qed.

Ltac open_validation fd :=
  unfold run, createPoll, updatePoll;
  change (FormData.get fd (js "question")) with (question_of fd);
  change (FormData.getAll fd (js "options")) with (options_of fd).

Section Validation.
Variable formData : FormData.t.
Variable pollId : jsstring.
Variable env : Env.
Variable w : World.

Lemma rejects_question :
  (forall q, question_of formData = Some q -> ~ question_ok q) ->
  run (createPoll formData) env w = returned (failure "Poll question must be between 1 and 255 characters.") w /\
  run (updatePoll pollId formData) env w = returned (failure "Poll question must be between 1 and 255 characters.") w.
Proof.
  intros H. open_validation formData.
  destruct (question_of formData) as [q|]; [|split; reflexivity].
  specialize (H q eq_refl). rewrite <- question_test in H.
  destruct (_ || _); [split; reflexivity | congruence].
Qed.

Lemma rejects_too_few (q : jsstring) :
  question_of formData = Some q -> question_ok q ->
  length (filter Boolean (options_of formData)) < 2 ->
  run (createPoll formData) env w = returned (failure "Please provide at least two options.") w /\
  run (updatePoll pollId formData) env w = returned (failure "Please provide at least two options.") w.
Proof.
  intros Hq Hok Hn. open_validation formData. rewrite Hq.
  apply question_test in Hok. rewrite Hok.
  apply Nat.ltb_lt in Hn. rewrite Hn. split; reflexivity.
Qed.

Lemma rejects_option (q : jsstring) :
  question_of formData = Some q -> question_ok q ->
  2 <= length (filter Boolean (options_of formData)) ->
  ~ Forall option_ok (filter Boolean (options_of formData)) ->
  run (createPoll formData) env w = returned (failure "Each option must be between 1 and 100 characters.") w /\
  run (updatePoll pollId formData) env w = returned (failure "Each option must be between 1 and 100 characters.") w.
Proof.
  intros Hq Hok Hn Hf. open_validation formData. rewrite Hq.
  apply question_test in Hok. rewrite Hok.
  apply Nat.ltb_ge in Hn. rewrite Hn.
  rewrite <- for_of_options_None in Hf.
  destruct (for_of_options _) as [r|] eqn:E; [|congruence].
  apply for_of_options_Some in E. subst r. split; reflexivity.
Qed.

(** Whether the form is accepted is decided by the three tests. *)
Lemma accepted_dec :
  accepted formData \/
  (forall q, question_of formData = Some q -> ~ question_ok q) \/
  (exists q, question_of formData = Some q /\ question_ok q /\
             length (filter Boolean (options_of formData)) < 2) \/
  (exists q, question_of formData = Some q /\ question_ok q /\
             2 <= length (filter Boolean (options_of formData)) /\
             ~ Forall option_ok (filter Boolean (options_of formData))).
Proof.
  unfold accepted.
  destruct (question_of formData) as [q|]; [|right; left; discriminate].
  destruct (negb (Boolean q) || (length (trim q) =? 0) || (255 <? length q))
    eqn:Eq.
  { right; left. intros q' [= <-] Hok. apply question_test in Hok. congruence. }
  apply question_test in Eq.
  destruct (Nat.lt_ge_cases (length (filter Boolean (options_of formData))) 2)
    as [Hn|Hn].
  { right; right; left. eauto. }
  destruct (for_of_options (filter Boolean (options_of formData))) eqn:Ef.
  - right; right; right. exists q.
    split; [reflexivity|]. split; [exact Eq|]. split; [exact Hn|].
    rewrite <- for_of_options_None. congruence.
  - left. exists q. apply for_of_options_None in Ef. tauto.
Qed.
End Validation.

Ltac pass_validation fd Hq Hok Hn Hf :=
  open_validation fd; rewrite Hq;
  rewrite (proj2 (question_test _) Hok);
  rewrite (proj2 (Nat.ltb_ge _ _) Hn);
  rewrite (proj2 (for_of_options_None _) Hf).

Lemma createPoll_accepted_error formData env w :
  accepted formData ->
  after_validation "create" (session env)
    (Act.error (value (run (createPoll formData) env w))).
Proof.
  intros (q & Hq & Hok & Hn & Hf). pass_validation formData Hq Hok Hn Hf.
  unfold after_validation. simpl.
  destruct (AuthResponse.error (session env)); [left; split; [discriminate|reflexivity]|].
  destruct (AuthResponse.user (session env)); [|right; left; auto].
  right; right. split; [reflexivity|]. split; [discriminate|].
  simpl. destruct (fault (engine env 1)); [left; reflexivity|].
  destruct (existsb _ _); [left|right]; reflexivity.
Qed.

Lemma updatePoll_accepted_error pollId formData env w :
  accepted formData ->
  after_validation "update" (session env)
    (Act.error (value (run (updatePoll pollId formData) env w))).
Proof.
  intros (q & Hq & Hok & Hn & Hf). pass_validation formData Hq Hok Hn Hf.
  unfold after_validation. simpl.
  destruct (AuthResponse.error (session env)); [left; split; [discriminate|reflexivity]|].
  destruct (AuthResponse.user (session env)); [|right; left; auto].
  right; right. split; [reflexivity|]. split; [discriminate|].
  simpl. destruct (fault (engine env 1)); [left|right]; reflexivity.
Qed.

Lemma after_validation_not_validation action s e m :
  (action = "create" \/ action = "update")%string ->
  after_validation action s e -> ValidationError m -> e <> Some m.
Proof.
  intros Ha H Hm E. subst e.
  assert (Hm' : m = InvalidQuestion \/ m = InsufficientOptions \/ m = InvalidOption)
    by exact Hm.
  destruct H as [[_ H]|[(_ & _ & H)|(_ & _ & [H|H])]];
    destruct Ha as [-> | ->]; try discriminate H; injection H as ->;
    destruct Hm' as [H|[H|H]]; vm_compute in H; discriminate H.
Qed.

(* ================================================================== *)
(** ** Question and option rules (C6, C5) and their place before the
       session lookup (C4) *)
(* ================================================================== *)

(** C6, as stated, fails: a question of one letter followed by 255 spaces
    has trimmed length 1, within [1,255], and both actions still reject it
    with the question-length error, because the upper bound is tested on
    the untrimmed string. *)
Lemma padded_question_is_rejected :
  length (trim padded_question) = 1 /\
  Act.error (value (run (createPoll (form padded_question [js "Red"; js "Blue"]))
                        (isolated (signed_in "u1") quiet) no_polls))
  = Some InvalidQuestion /\
  Act.error (value (run (updatePoll (js "p1") (form padded_question [js "Red"; js "Blue"]))
                        (isolated (signed_in "u1") quiet) no_polls))
  = Some InvalidQuestion.
Proof. repeat split; vm_compute; reflexivity. Qed.

(** C6, amended: the question-length error is returned exactly when the
    question is empty after trimming or longer than 255 code units before
    trimming; in particular it is returned whenever the trimmed length is 0
    or exceeds 255. *)
Theorem question_rule formData pollId env w q :
  question_of formData = Some q ->
  let c := Act.error (value (run (createPoll formData) env w)) in
  let u := Act.error (value (run (updatePoll pollId formData) env w)) in
  (c = Some InvalidQuestion <-> length (trim q) = 0 \/ 255 < length q) /\
  (u = Some InvalidQuestion <-> length (trim q) = 0 \/ 255 < length q) /\
  (length (trim q) = 0 \/ 255 < length (trim q) ->
   c = Some InvalidQuestion /\ u = Some InvalidQuestion).
Proof.
  intros Hq c u.
  assert (Hrej : length (trim q) = 0 \/ 255 < length q ->
                 c = Some InvalidQuestion /\ u = Some InvalidQuestion).
  { intros Hbad.
    destruct (rejects_question formData pollId env w) as [Hc Hu].
    - intros q' Hq' [Ht Hl]. rewrite Hq in Hq'. injection Hq' as <-. lia.
    - subst c u. rewrite Hc, Hu. split; reflexivity. }
  assert (Hacc : ~ (length (trim q) = 0 \/ 255 < length q) ->
                 c <> Some InvalidQuestion /\ u <> Some InvalidQuestion).
  { intros Hgood. subst c u.
    destruct (accepted_dec formData) as [Ha|[Hr|[(q' & Hq' & Hok & Hn)|(q' & Hq' & Hok & Hn & Hf)]]].
    - split.
      + eapply (after_validation_not_validation (action := "create"));
          [left; reflexivity | apply createPoll_accepted_error, Ha
          | left; reflexivity].
      + eapply (after_validation_not_validation (action := "update"));
          [right; reflexivity | apply updatePoll_accepted_error, Ha
          | left; reflexivity].
    - exfalso. apply (Hr q Hq). unfold question_ok. lia.
    - destruct (rejects_too_few formData pollId env w Hq' Hok Hn) as [-> ->].
      split; intros H; vm_compute in H; discriminate H.
    - destruct (rejects_option formData pollId env w Hq' Hok Hn Hf) as [-> ->].
      split; intros H; vm_compute in H; discriminate H. }
  assert (Hdec : (length (trim q) = 0 \/ 255 < length q)
                 \/ ~ (length (trim q) = 0 \/ 255 < length q)) by lia.
  repeat split.
  - intros E. destruct Hdec as [H|H]; [exact H|]. now destruct (Hacc H).
  - intros H. now destruct (Hrej H).
  - intros E. destruct Hdec as [H|H]; [exact H|]. now destruct (Hacc H).
  - intros H. now destruct (Hrej H).
  - destruct H as [H|H]; apply Hrej; [lia|]. pose proof (length_trim q). lia.
  - destruct H as [H|H]; apply Hrej; [lia|]. pose proof (length_trim q). lia.
Qed.

Lemma question_rule_witness :
  question_of (form (js "   ") [js "Red"; js "Blue"]) = Some (js "   ") /\
  Act.error (value (run (createPoll (form (js "   ") [js "Red"; js "Blue"]))
                        (isolated (signed_in "u1") quiet) no_polls))
  = Some InvalidQuestion.
Proof.
  split; [reflexivity|].
  apply (question_rule (form (js "   ") [js "Red"; js "Blue"]) (js "p1")
           (isolated (signed_in "u1") quiet) no_polls (q := js "   ")).
  - reflexivity.
  - left. reflexivity.
Defined.

Lemma length_filter_filter {A} (f g : A -> bool) (l : list A) :
  length (filter f (filter g l)) <= length (filter f l).
Proof.
  induction l as [|x l IH]; simpl; [lia|].
  destruct (g x), (f x) eqn:E; simpl; rewrite ?E; simpl; lia.
Qed.

Lemma option_ok_not_blank (l : list jsstring) :
  Forall option_ok l -> filter (fun o => negb (blank o)) l = l.
Proof.
  intros H. apply forallb_filter_id, forallb_forall. intros o Ho.
  rewrite Forall_forall in H. destruct (H o Ho) as [Ht _].
  unfold blank. apply negb_true_iff, Nat.eqb_neq. lia.
Qed.

(** C5, as stated, fails: with the options "Red" and " " only one
    non-blank entry remains, and both actions answer with the per-option
    error instead of the two-option error; [filter(Boolean)] drops empty
    entries only, so the blank entry is counted. *)
Lemma blank_option_is_counted :
  length (filter (fun o => negb (blank o))
                 (options_of (form (js "Color?") [js "Red"; js " "]))) = 1 /\
  Act.error (value (run (createPoll (form (js "Color?") [js "Red"; js " "]))
                        (isolated (signed_in "u1") quiet) no_polls))
  = Some InvalidOption /\
  Act.error (value (run (updatePoll (js "p1") (form (js "Color?") [js "Red"; js " "]))
                        (isolated (signed_in "u1") quiet) no_polls))
  = Some InvalidOption /\
  InvalidOption <> InsufficientOptions.
Proof.
  repeat split; try (vm_compute; reflexivity).
  intros H. vm_compute in H. discriminate H.
Qed.

(** C5, amended: empty entries are dropped before the two-option minimum
    is applied, white-space-only entries are not.  When the question passes
    and fewer than 2 non-blank entries were submitted, both actions return
    a validation error before making any call, so nothing is written: the
    two-option error when fewer than 2 non-empty entries were submitted,
    the per-option error otherwise. *)
Theorem too_few_nonblank_options formData pollId env w q :
  question_of formData = Some q -> question_ok q ->
  length (filter (fun o => negb (blank o)) (options_of formData)) < 2 ->
  let m := if length (filter Boolean (options_of formData)) <? 2
           then InsufficientOptions else InvalidOption in
  run (createPoll formData) env w = returned {| Act.error := Some m |} w /\
  run (updatePoll pollId formData) env w = returned {| Act.error := Some m |} w.
Proof.
  intros Hq Hok Hfew m. subst m.
  destruct (length (filter Boolean (options_of formData)) <? 2) eqn:Hn.
  - apply Nat.ltb_lt in Hn. exact (rejects_too_few formData pollId env w Hq Hok Hn).
  - apply Nat.ltb_ge in Hn.
    apply (rejects_option formData pollId env w Hq Hok Hn).
    intros Hall. apply option_ok_not_blank in Hall.
    pose proof (length_filter_filter (fun o => negb (blank o)) Boolean
                  (options_of formData)) as Hle.
    rewrite Hall in Hle. lia.
Qed.

Lemma too_few_nonblank_options_witness :
  question_of (form (js "Color?") [js "Red"; js ""; js " "]) = Some (js "Color?") /\
  run (createPoll (form (js "Color?") [js "Red"; js ""; js " "]))
      (isolated (signed_in "u1") quiet) no_polls
  = returned {| Act.error := Some InvalidOption |} no_polls.
Proof.
  split; [reflexivity|].
  apply (too_few_nonblank_options (form (js "Color?") [js "Red"; js ""; js " "])
           (js "p1") (isolated (signed_in "u1") quiet) no_polls (q := js "Color?")).
  - reflexivity.
  - unfold question_ok. vm_compute. lia.
  - vm_compute. lia.
Defined.

(** C4, as stated, fails: with no resolved principal and an empty
    question, both actions return the question-length error, which is a
    validation error and not an Unauthenticated message. *)
Lemma signed_out_invalid_form_fails_validation :
  Act.error (value (run (createPoll (form (js "") []))
                        (isolated signed_out quiet) no_polls))
  = Some InvalidQuestion /\
  Act.error (value (run (updatePoll (js "p1") (form (js "") []))
                        (isolated signed_out quiet) no_polls))
  = Some InvalidQuestion /\
  ValidationError InvalidQuestion /\ ~ Unauthenticated InvalidQuestion.
Proof.
  repeat split; try (vm_compute; reflexivity).
  - left. reflexivity.
  - intros [rest H]. vm_compute in H. discriminate H.
Qed.

(** C4, amended: [createPoll] and [updatePoll] validate the form before
    they resolve the principal.  Called with no resolved principal, a form
    that fails validation is answered with its validation error before any
    call is made; a form that passes is answered, after the session lookup
    and without any write, with the Unauthenticated message of the action
    when the identity provider reports no error and with "Authentication
    failed." when it reports one. *)
Theorem validation_precedes_session formData pollId env w :
  AuthResponse.user (session env) = None ->
  let c := run (createPoll formData) env w in
  let u := run (updatePoll pollId formData) env w in
  (~ accepted formData ->
   exists m, ValidationError m /\
             c = returned {| Act.error := Some m |} w /\
             u = returned {| Act.error := Some m |} w) /\
  (accepted formData ->
   final c = others env 0 w /\ final u = others env 0 w /\
   trace c = [Ev auth_getUser (session env)] /\
   trace u = [Ev auth_getUser (session env)] /\
   match AuthResponse.error (session env) with
   | None =>
       Act.error (value c) = Some (js "You must be logged in to create a poll.") /\
       Act.error (value u) = Some (js "You must be logged in to update a poll.") /\
       Unauthenticated (js "You must be logged in to create a poll.") /\
       Unauthenticated (js "You must be logged in to update a poll.")
   | Some _ =>
       Act.error (value c) = Some (js "Authentication failed.") /\
       Act.error (value u) = Some (js "Authentication failed.")
   end).
Proof.
  intros Hnone c u. split.
  - intros Hno. subst c u.
    destruct (accepted_dec formData) as [Ha|[Hr|[(q & Hq & Hok & Hn)|(q & Hq & Hok & Hn & Hf)]]].
    + contradiction.
    + exists InvalidQuestion. split; [left; reflexivity|].
      exact (rejects_question formData pollId env w Hr).
    + exists InsufficientOptions. split; [right; left; reflexivity|].
      exact (rejects_too_few formData pollId env w Hq Hok Hn).
    + exists InvalidOption. split; [right; right; reflexivity|].
      exact (rejects_option formData pollId env w Hq Hok Hn Hf).
  - intros (q & Hq & Hok & Hn & Hf). subst c u.
    pass_validation formData Hq Hok Hn Hf. simpl. rewrite Hnone.
    destruct (AuthResponse.error (session env)); simpl.
    + repeat split.
    + repeat split; [exists (js "create a poll.") | exists (js "update a poll.")];
        reflexivity.
Qed.

Lemma validation_precedes_session_witness :
  AuthResponse.user (session (isolated signed_out quiet)) = None /\
  Act.error (value (run (createPoll (form (js "Color?") [js "Red"; js "Blue"]))
                        (isolated signed_out quiet) no_polls))
  = Some (js "You must be logged in to create a poll.").
Proof.
  split; [reflexivity|].
  pose proof (validation_precedes_session (form (js "Color?") [js "Red"; js "Blue"])
                (js "p1") (isolated signed_out quiet) no_polls eq_refl) as [_ H].
  apply H. exists (js "Color?"). split; [reflexivity|].
  split; [unfold question_ok; vm_compute; lia|].
  split; [vm_compute; lia|].
  repeat constructor; vm_compute; lia.
Defined.

(* ================================================================== *)
(** ** What reaches the caller of the poll actions (C2, C7) *)
(* ================================================================== *)

Ltac literal := simpl; solve [repeat (first [left; reflexivity | right])].

Lemma validation_generic m : ValidationError m -> In m user_safe_messages.
Proof. intros [-> | [-> | ->]]; literal. Qed.

Lemma after_validation_generic action s e :
  (action = "create" \/ action = "update")%string ->
  after_validation action s e -> generic e.
Proof.
  intros Ha H.
  destruct H as [[_ ->] | [(_ & _ & ->) | (_ & _ & [-> | ->])]];
    destruct Ha as [-> | ->]; try exact I; literal.
Qed.

Lemma createPoll_generic formData env w :
  generic (Act.error (value (run (createPoll formData) env w))).
Proof.
  destruct (accepted_dec formData) as [Ha|[Hr|[(q & Hq & Hok & Hn)|(q & Hq & Hok & Hn & Hf)]]].
  - eapply after_validation_generic;
      [left; reflexivity | apply createPoll_accepted_error, Ha].
  - destruct (rejects_question formData [] env w Hr) as [-> _]. literal.
  - destruct (rejects_too_few formData [] env w Hq Hok Hn) as [-> _]. literal.
  - destruct (rejects_option formData [] env w Hq Hok Hn Hf) as [-> _]. literal.
Qed.

Lemma updatePoll_generic pollId formData env w :
  generic (Act.error (value (run (updatePoll pollId formData) env w))).
Proof.
  destruct (accepted_dec formData) as [Ha|[Hr|[(q & Hq & Hok & Hn)|(q & Hq & Hok & Hn & Hf)]]].
  - eapply after_validation_generic;
      [right; reflexivity | apply updatePoll_accepted_error, Ha].
  - destruct (rejects_question formData pollId env w Hr) as [_ ->]. literal.
  - destruct (rejects_too_few formData pollId env w Hq Hok Hn) as [_ ->]. literal.
  - destruct (rejects_option formData pollId env w Hq Hok Hn Hf) as [_ ->]. literal.
Qed.



(** C7, as stated, fails in its last part: the result of [createPoll] is
    [{ error: null }] whatever identifier the new row received, so no
    identifier can be read off it.  Two engines that generate different
    ids give the same result. *)
Lemma createPoll_result_has_no_identifier :
  let formData := form (js "Color?") [js "Red"; js "Blue"] in
  let o1 := run (createPoll formData) (isolated (signed_in "u1") quiet) no_polls in
  let o2 := run (createPoll formData) (isolated (signed_in "u1") (later quiet))
                no_polls in
  value o1 = {| Act.error := None |} /\ value o2 = value o1 /\
  map Poll.id (polls (final o1)) = [js "row-1"] /\
  map Poll.id (polls (final o2)) = [js "row-5"] /\
  ~ (exists identifier : Act.t -> jsstring,
        map Poll.id (polls (final o1)) = [identifier (value o1)] /\
        map Poll.id (polls (final o2)) = [identifier (value o2)]).
Proof.
  repeat split; try (vm_compute; reflexivity).
  intros (identifier & H1 & H2).
  vm_compute in H1, H2. rewrite <- H1 in H2. discriminate H2.
Qed.

(** C7, amended: a successful [createPoll] that runs alone appends exactly
    one row to [polls], owned by the calling principal and holding the
    submitted question and non-empty options, leaves [votes] alone, and
    returns [{ error: null }]; the identifier the engine generated for the
    row is not returned. *)
Theorem createPoll_inserts_one_owned_row formData s g w :
  let o := run (createPoll formData) (isolated s g) w in
  Act.error (value o) = None ->
  exists user_id q,
    AuthResponse.user s = Some user_id /\
    question_of formData = Some q /\
    polls (final o)
    = polls w ++ [{| Poll.id := new_id (g 1); Poll.user_id := user_id;
                     Poll.question := q;
                     Poll.options := filter Boolean (options_of formData);
                     Poll.created_at := now (g 1) |}] /\
    votes (final o) = votes w /\
    value o = {| Act.error := None |}.
Proof.
  intros o. subst o.
  destruct (accepted_dec formData) as [Ha|[Hr|[(q & Hq & Hok & Hn)|(q & Hq & Hok & Hn & Hf)]]].
  - destruct Ha as (q & Hq & Hok & Hn & Hf).
    pass_validation formData Hq Hok Hn Hf. simpl.
    destruct (AuthResponse.error s); [discriminate|].
    destruct (AuthResponse.user s) as [user_id|]; [|discriminate].
    simpl. destruct (fault (g 1)); [discriminate|].
    destruct (existsb _ _); [discriminate|].
    simpl. intros _. exists user_id, q. repeat split.
  - destruct (rejects_question formData [] (isolated s g) w Hr) as [-> _].
    discriminate.
  - destruct (rejects_too_few formData [] (isolated s g) w Hq Hok Hn) as [-> _].
    discriminate.
  - destruct (rejects_option formData [] (isolated s g) w Hq Hok Hn Hf) as [-> _].
    discriminate.
Qed.

Lemma createPoll_inserts_one_owned_row_witness :
  Act.error (value (run (createPoll (form (js "Color?") [js "Red"; js "Blue"]))
                        (isolated (signed_in "u1") quiet) no_polls)) = None /\
  exists user_id q,
    AuthResponse.user (signed_in "u1") = Some user_id /\
    question_of (form (js "Color?") [js "Red"; js "Blue"]) = Some q /\
    polls (final (run (createPoll (form (js "Color?") [js "Red"; js "Blue"]))
                      (isolated (signed_in "u1") quiet) no_polls))
    = polls no_polls
      ++ [{| Poll.id := new_id (quiet 1); Poll.user_id := user_id;
             Poll.question := q;
             Poll.options :=
               filter Boolean (options_of (form (js "Color?") [js "Red"; js "Blue"]));
             Poll.created_at := now (quiet 1) |}] /\
    votes (final (run (createPoll (form (js "Color?") [js "Red"; js "Blue"]))
                      (isolated (signed_in "u1") quiet) no_polls))
    = votes no_polls /\
    value (run (createPoll (form (js "Color?") [js "Red"; js "Blue"]))
               (isolated (signed_in "u1") quiet) no_polls)
    = {| Act.error := None |}.
Proof.
  split; [reflexivity|].
  apply (createPoll_inserts_one_owned_row
           (form (js "Color?") [js "Red"; js "Blue"]) (signed_in "u1") quiet no_polls).
  reflexivity.
Defined.

(* ================================================================== *)
(** ** Ownership in the queries (C1, C8, C9) *)
(* ================================================================== *)

Lemma poll_matches_id_owner id user_id p :
  poll_matches [poll_id_eq id; poll_user_id_eq user_id] p = true
  <-> Poll.id p = id /\ Poll.user_id p = user_id.
Proof.
  unfold poll_matches, forallb.
  rewrite andb_true_r, andb_true_iff, !str_eqb_eq. reflexivity.
Qed.

Lemma filter_none {A} (f : A -> bool) (l : list A) :
  (forall x, In x l -> f x = false) -> filter f l = [].
Proof.
  induction l as [|x l IH]; simpl; intros H; [reflexivity|].
  rewrite (H x (or_introl eq_refl)). apply IH. intros y Hy. apply H. now right.
Qed.

Lemma filter_all {A} (f : A -> bool) (l : list A) :
  (forall x, In x l -> f x = true) -> filter f l = l.
Proof. intros H. apply forallb_filter_id, forallb_forall, H. Qed.

Lemma cascade_nothing (vs : list Vote.row) : cascade [] vs = vs.
Proof. unfold cascade. apply filter_all. reflexivity. Qed.

(** When no row has both the id and the owner, the update and the delete
    affect zero rows, and the engine reports no error. *)
Lemma no_match_no_change id user_id q opts s e w :
  (forall p, In p (polls w) -> ~ (Poll.id p = id /\ Poll.user_id p = user_id)) ->
  fault e = None ->
  handle (polls_delete [poll_id_eq id; poll_user_id_eq user_id]) s e w = (None, w) /\
  handle (polls_update q opts [poll_id_eq id; poll_user_id_eq user_id]) s e w
  = (None, w).
Proof.
  intros Hno He. simpl. rewrite He.
  assert (Hf : forall p, In p (polls w) ->
               poll_matches [poll_id_eq id; poll_user_id_eq user_id] p = false).
  { intros p Hp. apply not_true_is_false. rewrite poll_matches_id_owner.
    exact (Hno p Hp). }
  destruct w as [ps vs rs]. unfold set_polls. simpl in *.
  split; f_equal; f_equal.
  - apply filter_all. intros p Hp. now rewrite (Hf p Hp).
  - rewrite (filter_none _ _ Hf). apply cascade_nothing.
  - rewrite <- (map_id ps) at 2. apply map_ext_in. intros p Hp.
    now rewrite (Hf p Hp).
Qed.

(** C1 requires a generic failure when no row has both the id and the
    owner.  The code at that input: bob, signed in, deletes and updates the
    poll [p1] of alice, and a poll [p9] that does not exist.  No row
    matches and [polls] is left as it was, as C1 says, but each of the
    four calls returns [{ error: null }], a success. *)
Theorem non_owner_delete_update_report_success :
  let bob := isolated (signed_in "bob") quiet in
  let formData := form (js "Taken over") [js "Yes"; js "No"] in
  (Act.error (value (run (deletePoll (js "p1")) bob alices_poll)) = None /\
   polls (final (run (deletePoll (js "p1")) bob alices_poll))
   = polls alices_poll) /\
  (Act.error (value (run (updatePoll (js "p1") formData) bob alices_poll)) = None /\
   polls (final (run (updatePoll (js "p1") formData) bob alices_poll))
   = polls alices_poll) /\
  Act.error (value (run (deletePoll (js "p9")) bob alices_poll)) = None /\
  Act.error (value (run (updatePoll (js "p9") formData) bob alices_poll)) = None.
Proof. repeat split; vm_compute; reflexivity. Qed.

(** The same in general: for a signed-in principal, an engine that does
    not fail and an accepted form, an update or a delete that matches no
    row leaves both tables as they were and returns [{ error: null }]. *)
Lemma unmatched_delete_update_succeed id formData user_id g w :
  (forall p, In p (polls w) -> ~ (Poll.id p = id /\ Poll.user_id p = user_id)) ->
  fault (g 1) = None -> accepted formData ->
  let s := {| AuthResponse.user := Some user_id; AuthResponse.error := None |} in
  let d := run (deletePoll id) (isolated s g) w in
  let u := run (updatePoll id formData) (isolated s g) w in
  value d = success /\ polls (final d) = polls w /\ votes (final d) = votes w /\
  value u = success /\ final u = w.
Proof.
  intros Hno Hg (q & Hq & Hok & Hn & Hf) s d u. subst d u.
  pass_validation formData Hq Hok Hn Hf. unfold deletePoll.
  destruct (@no_match_no_change id user_id q
              (filter Boolean (options_of formData)) s (g 1) w Hno Hg) as [Hd Hu].
  simpl in Hd, Hu. rewrite Hg in Hd, Hu.
  injection Hd as Hd. injection Hu as Hu.
  pose proof (f_equal polls Hd) as Hdp. pose proof (f_equal votes Hd) as Hdv.
  simpl. unfold alone. rewrite Hg. simpl.
  repeat split; assumption.
Qed.

(** C8: for a signed-in principal, [getPollById] answers a poll id that
    does not exist and a poll id that exists under another owner with the
    same value, [{ poll: null, error: "Failed to retrieve poll." }],
    whatever the engine does in either run. *)
Theorem getPollById_hides_existence id user_id g_missing g_foreign
    w_missing w_foreign :
  (forall p, In p (polls w_missing) -> Poll.id p <> id) ->
  (exists p, In p (polls w_foreign) /\ Poll.id p = id) ->
  (forall p, In p (polls w_foreign) -> Poll.id p = id -> Poll.user_id p <> user_id) ->
  let s := {| AuthResponse.user := Some user_id; AuthResponse.error := None |} in
  value (run (getPollById id) (isolated s g_missing) w_missing)
  = value (run (getPollById id) (isolated s g_foreign) w_foreign) /\
  value (run (getPollById id) (isolated s g_foreign) w_foreign)
  = {| PollResult.poll := None;
       PollResult.error := Some (js "Failed to retrieve poll.") |}.
Proof.
  intros Hmissing _ Hforeign s.
  assert (H : forall g w,
             (forall p, In p (polls w) ->
                        ~ (Poll.id p = id /\ Poll.user_id p = user_id)) ->
             value (run (getPollById id) (isolated s g) w)
             = {| PollResult.poll := None;
                  PollResult.error := Some (js "Failed to retrieve poll.") |}).
  { intros g w Hno. unfold run, getPollById. simpl.
    destruct (fault (g 1)); [reflexivity|].
    rewrite filter_none; [reflexivity|].
    intros p Hp. apply not_true_is_false. rewrite poll_matches_id_owner.
    exact (Hno p Hp). }
  rewrite !H; [split; reflexivity | |].
  - intros p Hp [Hid Hu]. exact (Hforeign p Hp Hid Hu).
  - intros p Hp [Hid _]. exact (Hmissing p Hp Hid).
Qed.

Lemma getPollById_hides_existence_witness :
  value (run (getPollById (js "p1")) (isolated (signed_in "bob") broken) no_polls)
  = value (run (getPollById (js "p1")) (isolated (signed_in "bob") quiet) alices_poll) /\
  value (run (getPollById (js "p1")) (isolated (signed_in "bob") quiet) alices_poll)
  = {| PollResult.poll := None;
       PollResult.error := Some (js "Failed to retrieve poll.") |}.
Proof.
  apply (@getPollById_hides_existence (js "p1") (js "bob") broken quiet
           no_polls alices_poll).
  - intros p [].
  - eexists. split; [left; reflexivity | reflexivity].
  - intros p [<-|[]] _ H. vm_compute in H. discriminate H.
Defined.

(** C9: a successful [updatePoll] that runs alone keeps the number and
    order of the rows of [polls]; every row keeps its [id], [user_id] and
    [created_at]; a row with the given id that is owned by the caller
    receives the submitted question and options, and every other row is
    unchanged; [votes] is unchanged. *)
Theorem updatePoll_changes_question_and_options_only pollId formData s g w :
  let o := run (updatePoll pollId formData) (isolated s g) w in
  Act.error (value o) = None ->
  exists user_id q,
    AuthResponse.user s = Some user_id /\
    question_of formData = Some q /\
    votes (final o) = votes w /\
    Forall2
      (fun old new =>
         Poll.id new = Poll.id old /\
         Poll.user_id new = Poll.user_id old /\
         Poll.created_at new = Poll.created_at old /\
         (Poll.id old = pollId /\ Poll.user_id old = user_id ->
          Poll.question new = q /\
          Poll.options new = filter Boolean (options_of formData)) /\
         (~ (Poll.id old = pollId /\ Poll.user_id old = user_id) -> new = old))
      (polls w) (polls (final o)).
Proof.
  intros o. subst o.
  destruct (accepted_dec formData) as [Ha|[Hr|[(q & Hq & Hok & Hn)|(q & Hq & Hok & Hn & Hf)]]].
  - destruct Ha as (q & Hq & Hok & Hn & Hf).
    pass_validation formData Hq Hok Hn Hf. simpl.
    destruct (AuthResponse.error s); [discriminate|].
    destruct (AuthResponse.user s) as [user_id|]; [|discriminate].
    simpl. destruct (fault (g 1)); [discriminate|].
    simpl. unfold alone. intros _. exists user_id, q.
    repeat split.
    induction (polls w) as [|p ps IH]; simpl; constructor; [|exact IH].
    destruct (poll_matches _ p) eqn:E.
    + apply poll_matches_id_owner in E. simpl. tauto.
    + apply not_true_iff_false in E. rewrite poll_matches_id_owner in E.
      repeat split; tauto.
  - destruct (rejects_question formData pollId (isolated s g) w Hr) as [_ ->].
    discriminate.
  - destruct (rejects_too_few formData pollId (isolated s g) w Hq Hok Hn) as [_ ->].
    discriminate.
  - destruct (rejects_option formData pollId (isolated s g) w Hq Hok Hn Hf) as [_ ->].
    discriminate.
Qed.

Lemma updatePoll_changes_question_and_options_only_witness :
  Act.error (value (run (updatePoll (js "p1") (form (js "Colour?") [js "Red"; js "Green"]))
                        (isolated (signed_in "alice") quiet) alices_poll)) = None /\
  exists user_id q,
    AuthResponse.user (signed_in "alice") = Some user_id /\
    question_of (form (js "Colour?") [js "Red"; js "Green"]) = Some q /\
    votes (final (run (updatePoll (js "p1") (form (js "Colour?") [js "Red"; js "Green"]))
                      (isolated (signed_in "alice") quiet) alices_poll))
    = votes alices_poll /\
    Forall2
      (fun old new =>
         Poll.id new = Poll.id old /\
         Poll.user_id new = Poll.user_id old /\
         Poll.created_at new = Poll.created_at old /\
         (Poll.id old = js "p1" /\ Poll.user_id old = user_id ->
          Poll.question new = q /\
          Poll.options new
          = filter Boolean (options_of (form (js "Colour?") [js "Red"; js "Green"]))) /\
         (~ (Poll.id old = js "p1" /\ Poll.user_id old = user_id) -> new = old))
      (polls alices_poll)
      (polls (final (run (updatePoll (js "p1") (form (js "Colour?") [js "Red"; js "Green"]))
                         (isolated (signed_in "alice") quiet) alices_poll))).
Proof.
  split; [reflexivity|].
  apply (updatePoll_changes_question_and_options_only (js "p1")
           (form (js "Colour?") [js "Red"; js "Green"]) (signed_in "alice") quiet
           alices_poll).
  reflexivity.
Defined.

(* ================================================================== *)
(** ** Voting (C10, C3) *)
(* ================================================================== *)

(** One step of a run with no other request in between. *)
Ltac quiet_step := simpl; unfold alone, single; simpl.

(** Case analysis of a run, one scrutinee at a time. *)
Ltac split_run :=
  repeat (simpl; unfold alone, single;
          match goal with
          | |- context [match ?x with _ => _ end] =>
              lazymatch x with
              | context [match _ with _ => _ end] => fail
              | _ => destruct x eqn:?
              end
          end).

(** C10: a [submitVote] that runs alone never changes [polls], whatever
    it returns.  When it returns an error, which is then one of its seven
    messages (not logged in, invalid poll id, poll not found, invalid
    option, failed check, duplicate vote, failed insert), [votes] is
    unchanged as well; when it succeeds, [votes] has gained exactly one
    row, the caller's vote for the given poll and option. *)
Theorem submitVote_frame pollId optionIndex s g w :
  let o := run (submitVote pollId optionIndex) (isolated s g) w in
  polls (final o) = polls w /\
  revalidated (final o) = revalidated w /\
  match Act.error (value o) with
  | Some m => In m submitVote_messages /\ votes (final o) = votes w
  | None =>
      exists v, votes (final o) = votes w ++ [v] /\
                Vote.poll_id v = pollId /\
                AuthResponse.user s = Some (Vote.user_id v) /\
                Vote.option_index v = optionIndex
  end.
Proof.
  unfold run, submitVote. split_run; repeat split; try reflexivity.
  all: try (eexists; repeat split).
  all: simpl; repeat (first [left; reflexivity | right]).
Qed.

Lemma existsb_false_filter {A} (f : A -> bool) (l : list A) :
  existsb f l = false <-> filter f l = [].
Proof.
  induction l as [|x l IH]; simpl; [tauto|].
  destruct (f x); simpl; [split; discriminate | exact IH].
Qed.

Lemma poll_matches_id id p :
  poll_matches [poll_id_eq id] p = str_eqb (Poll.id p) id.
Proof. unfold poll_matches, forallb. apply andb_true_r. Qed.

Lemma vote_matches_pair pollId user_id v :
  vote_matches [vote_poll_id_eq pollId; vote_user_id_eq user_id] v = true
  <-> Vote.poll_id v = pollId /\ Vote.user_id v = user_id.
Proof.
  unfold vote_matches, forallb.
  rewrite andb_true_r, andb_true_iff, !str_eqb_eq. reflexivity.
Qed.

(** The uniqueness constraint of [votes]: an insert is accepted only when
    the pair has no row, and then the pair has exactly one; a refused
    insert changes nothing. *)
Lemma votes_insert_constraint pollId user_id i s e w :
  match handle (votes_insert pollId user_id i) s e w with
  | (None, w') =>
      votes_of pollId user_id w = 0 /\ votes_of pollId user_id w' = 1 /\
      polls w' = polls w
  | (Some _, w') => w' = w
  end.
Proof.
  unfold votes_of. simpl.
  destruct (fault e); [reflexivity|].
  destruct (negb _); [reflexivity|].
  destruct (existsb (vote_matches _) _) eqn:E; [reflexivity|].
  destruct (existsb (fun v => str_eqb (Vote.id v) _) _); [reflexivity|].
  apply existsb_false_filter in E. simpl. rewrite filter_app, E. simpl.
  replace (vote_matches _ _) with true; [repeat split|].
  symmetry. now apply vote_matches_pair.
Qed.

(** When the pair already has a row and the poll exists, an engine that
    does not fail refuses the insert with the uniqueness violation. *)
Lemma votes_insert_refused pollId user_id i s e w :
  fault e = None ->
  existsb (fun p => str_eqb (Poll.id p) pollId) (polls w) = true ->
  1 <= votes_of pollId user_id w ->
  handle (votes_insert pollId user_id i) s e w
  = (Some (unique_violation "unique_vote_per_user_per_poll"), w).
Proof.
  unfold votes_of. intros He Hp Hv. simpl. rewrite He, Hp. simpl.
  destruct (existsb (vote_matches _) _) eqn:E; [reflexivity|].
  apply existsb_false_filter in E. rewrite E in Hv. simpl in Hv. lia.
Qed.

(** Every call keeps the pairs unique, and so does every action, provided
    the other requests do. *)
Lemma handle_keeps_votes_unique {A} (c : Cmd A) s e w :
  votes_unique w -> votes_unique (snd (handle c s e w)).
Proof.
  intros Hw. destruct c; simpl; try exact Hw;
    try (destruct (fault e); simpl; exact Hw).
  - destruct (fault e); simpl; [exact Hw|].
    destruct (existsb _ _); simpl; exact Hw.
  - destruct (fault e); simpl; [exact Hw|].
    intros p u. unfold votes_of, cascade. simpl.
    etransitivity; [apply length_filter_filter | apply Hw].
  - destruct (fault e); simpl; [exact Hw|].
    destruct (negb _); simpl; [exact Hw|].
    destruct (existsb (vote_matches _) _) eqn:E; simpl; [exact Hw|].
    destruct (existsb (fun v => str_eqb (Vote.id v) _) _); simpl; [exact Hw|].
    intros p u. unfold votes_of. simpl. rewrite filter_app, length_app. simpl.
    destruct (vote_matches [vote_poll_id_eq p; vote_user_id_eq u] _) eqn:M; simpl.
    + apply vote_matches_pair in M. simpl in M. destruct M as [<- <-].
      apply existsb_false_filter in E. rewrite E. simpl. lia.
    + specialize (Hw p u). unfold votes_of in Hw. lia.
Qed.

Lemma run_keeps_votes_unique {R} (p : Action R) env :
  (forall n w, votes_unique w -> votes_unique (others env n w)) ->
  forall n w, votes_unique w -> votes_unique (final (run_from p env n w)).
Proof.
  intros Hothers. induction p as [r|A c k IH]; intros n w Hw; simpl.
  - exact Hw.
  - pose proof (handle_keeps_votes_unique c (session env) (engine env n)
                  (Hothers n w Hw)) as Hstep.
    destruct (handle c (session env) (engine env n) (others env n w)) as [a w'].
    simpl. apply IH. exact Hstep.
Qed.

(** How [submitVote] reports its insert, under any engine and any
    interference: without an insert it fails; an accepted insert is a
    success; a refused insert, whatever the reason, is "Failed to submit
    vote.". *)
Lemma submitVote_reports_insert pollId i env w :
  let o := run (submitVote pollId i) env w in
  match vote_insert_replies (trace o) with
  | [] => Act.error (value o) <> None
  | [None] => value o = success
  | [Some _] => value o = failure "Failed to submit vote."
  | _ => False
  end.
Proof.
  unfold run, submitVote. split_run; try reflexivity; discriminate.
Qed.

(** What a successful [submitVote] that runs alone found and did. *)
Lemma submitVote_success_inv pollId i s g w :
  let o := run (submitVote pollId i) (isolated s g) w in
  Act.error (value o) = None ->
  exists user_id poll v,
    AuthResponse.user s = Some user_id /\
    Boolean pollId = true /\
    filter (poll_matches [poll_id_eq pollId]) (polls w) = [poll] /\
    votes_of pollId user_id w = 0 /\
    Vote.poll_id v = pollId /\ Vote.user_id v = user_id /\
    final o = set_votes w (votes w ++ [v]).
Proof.
  unfold run, submitVote, votes_of. split_run; try discriminate.
  all: intros _; do 3 eexists; repeat split; try reflexivity.
  all: try match goal with
           | H : negb (Boolean _) = false |- Boolean _ = true =>
               now apply negb_false_iff in H
           | H : existsb (vote_matches _) _ = false |- length _ = 0 =>
               apply existsb_false_filter in H; now rewrite H
           end.
Qed.

(** Once the pair has a row, a further [submitVote] of the principal on
    the poll, run alone, fails and changes nothing; with exactly one row,
    an engine that does not fail its two reads and an option index in
    range, the failure is the duplicate-vote message. *)
Lemma submitVote_again pollId j s g w user_id poll :
  AuthResponse.user s = Some user_id ->
  Boolean pollId = true ->
  filter (poll_matches [poll_id_eq pollId]) (polls w) = [poll] ->
  votes_of pollId user_id w = 1 ->
  let o := run (submitVote pollId j) (isolated s g) w in
  Act.error (value o) <> None /\ final o = w /\
  (fault (g 1) = None -> fault (g 2) = None ->
   (0 <= j < Z.of_nat (length (Poll.options poll)))%Z ->
   Act.error (value o) = Some DuplicateVote).
Proof.
  intros Hu Hb Hp Hv.
  assert (Hex : existsb (fun p => str_eqb (Poll.id p) pollId) (polls w) = true).
  { destruct (existsb _ _) eqn:E; [reflexivity|].
    apply existsb_false_filter in E.
    rewrite <- (filter_ext _ _ (poll_matches_id pollId)), Hp in E. discriminate E. }
  assert (Hone : 1 <= votes_of pollId user_id w) by lia.
  unfold votes_of in Hv.
  destruct (filter (vote_matches _) (votes w)) as [|v [|v' rest]] eqn:Hf;
    try discriminate Hv.
  unfold run, submitVote. quiet_step. rewrite Hu, Hb. quiet_step.
  destruct (fault (g 1)) eqn:F1; quiet_step.
  { repeat split; [discriminate | intros H; discriminate H]. }
  rewrite Hp. quiet_step.
  destruct ((j <? 0)%Z || (j >=? Z.of_nat (length (Poll.options poll)))%Z) eqn:Hj;
    quiet_step.
  { repeat split; [discriminate|]. intros _ _ Hrange.
    rewrite orb_true_iff, Z.ltb_lt, Z.geb_le in Hj. lia. }
  destruct (fault (g 2)) as [err|] eqn:F2; quiet_step.
  - destruct (negb (str_eqb (PostgrestError.code err) (js "PGRST116")));
      quiet_step.
    { repeat split; [discriminate | intros _ H; discriminate H]. }
    pose proof (@votes_insert_refused pollId user_id j s (g 3) w) as Hr.
    simpl in Hr.
    destruct (fault (g 3)); quiet_step.
    { repeat split; [discriminate | intros _ H; discriminate H]. }
    rewrite (Hr eq_refl Hex Hone). quiet_step.
    repeat split; [discriminate | intros _ H; discriminate H].
  - rewrite Hf. quiet_step. repeat split. discriminate.
Qed.

(** C3, as stated, fails in its last part.  Bob votes on [p1] while a
    second request of his does the same: the second request inserts its
    vote after the first one checked for an existing vote and before the
    first one inserts.  The insert of the first request is refused by the
    uniqueness constraint, one row exists afterwards, and the first request
    returns "Failed to submit vote.", not the duplicate-vote message. *)
Lemma racing_vote_reported_as_generic_failure :
  let o := run (submitVote (js "p1") 0) racing alices_poll in
  vote_insert_replies (trace o)
  = [Some (unique_violation "unique_vote_per_user_per_poll")] /\
  Act.error (value o) = Some (js "Failed to submit vote.") /\
  Act.error (value o) <> Some DuplicateVote /\
  votes_of (js "p1") (js "bob") (final o) = 1.
Proof.
  repeat split; try (vm_compute; reflexivity).
  intros H. vm_compute in H. discriminate H.
Qed.

(** C3, amended.  For a principal and a poll: (1) the store accepts a vote
    insert only when the pair has no row, and the pair then has exactly one
    row; a refused insert changes nothing.  (2) Under any engine and any
    interleaving, [submitVote] succeeds exactly when its insert was
    accepted, and reports a refused insert, the uniqueness violation
    included, as "Failed to submit vote.".  (3) After a successful
    [submitVote], exactly one row of the pair exists, and a second call
    run alone fails and changes nothing; it fails with the duplicate-vote
    message when the engine does not fail its two reads and the option
    index is in range.  (4) Under any interleaving with requests that keep
    at most one row per pair, [submitVote] keeps at most one row per
    pair. *)
Theorem submitVote_once pollId user_id s :
  AuthResponse.user s = Some user_id ->
  (forall i e w,
     match handle (votes_insert pollId user_id i) s e w with
     | (None, w') =>
         votes_of pollId user_id w = 0 /\ votes_of pollId user_id w' = 1
     | (Some _, w') => w' = w
     end) /\
  (forall i g interference w,
     let o := run (submitVote pollId i)
                  {| session := s; engine := g; others := interference |} w in
     match vote_insert_replies (trace o) with
     | [] => Act.error (value o) <> None
     | [None] => value o = success
     | [Some _] => value o = failure "Failed to submit vote."
     | _ => False
     end) /\
  (forall i j g g' w,
     let first := run (submitVote pollId i) (isolated s g) w in
     Act.error (value first) = None ->
     let second := run (submitVote pollId j) (isolated s g') (final first) in
     votes_of pollId user_id w = 0 /\
     votes_of pollId user_id (final first) = 1 /\
     Act.error (value second) <> None /\
     final second = final first /\
     (fault (g' 1) = None -> fault (g' 2) = None ->
      (forall poll, In poll (polls w) -> Poll.id poll = pollId ->
                    (0 <= j < Z.of_nat (length (Poll.options poll)))%Z) ->
      Act.error (value second) = Some DuplicateVote)) /\
  (forall i g interference w,
     (forall n w', votes_unique w' -> votes_unique (interference n w')) ->
     votes_unique w ->
     votes_unique
       (final (run (submitVote pollId i)
                   {| session := s; engine := g; others := interference |} w))).
Proof.
  intros Hu. split; [|split; [|split]].
  4: { intros i g interference w Hothers Hw.
       now apply run_keeps_votes_unique. }
  - intros i e w. pose proof (votes_insert_constraint pollId user_id i s e w) as H.
    destruct (handle _ _ _ _) as [[err|] w']; tauto.
  - intros i g interference w. apply submitVote_reports_insert.
  - intros i j g g' w first Hok second.
    destruct (submitVote_success_inv pollId i s g w Hok)
      as (u & poll & v & Hu' & Hb & Hp & H0 & Hvp & Hvu & Hfinal).
    rewrite Hu in Hu'. injection Hu' as <-.
    assert (H1 : votes_of pollId user_id (final first) = 1).
    { fold first in Hfinal. rewrite Hfinal. unfold votes_of in *. simpl.
      rewrite filter_app, length_app. simpl.
      replace (vote_matches _ v) with true
        by (symmetry; now apply vote_matches_pair).
      simpl. lia. }
    assert (Hp1 : filter (poll_matches [poll_id_eq pollId]) (polls (final first))
                  = [poll]).
    { fold first in Hfinal. rewrite Hfinal. exact Hp. }
    destruct (@submitVote_again pollId j s g' (final first) user_id poll
                Hu Hb Hp1 H1) as (Hfail & Hsame & Hdup).
    repeat split; try assumption.
    intros F1 F2 Hrange. apply Hdup; try assumption.
    assert (Hin : In poll (filter (poll_matches [poll_id_eq pollId]) (polls w)))
      by (rewrite Hp; now left).
    apply filter_In in Hin. destruct Hin as [Hin Hm].
    rewrite poll_matches_id, str_eqb_eq in Hm. exact (Hrange poll Hin Hm).
Qed.

Lemma submitVote_once_witness :
  AuthResponse.user (signed_in "bob") = Some (js "bob") /\
  Act.error
    (value (run (submitVote (js "p1") 1) (isolated (signed_in "bob") quiet)
                (final (run (submitVote (js "p1") 0)
                            (isolated (signed_in "bob") quiet) alices_poll))))
  = Some DuplicateVote.
Proof.
  split; [reflexivity|].
  destruct (@submitVote_once (js "p1") (js "bob") (signed_in "bob") eq_refl)
    as (_ & _ & H & _).
  apply (H 0%Z 1%Z quiet quiet alices_poll); try reflexivity.
  intros poll [<-|[]] _. simpl. lia.
Defined.

(* ================================================================== *)
(** ** Reading polls: [getUserPolls] and [getPollById] *)
(* ================================================================== *)

Lemma poll_matches_owner user_id p :
  poll_matches [poll_user_id_eq user_id] p = str_eqb (Poll.user_id p) user_id.
Proof. unfold poll_matches, forallb. apply andb_true_r. Qed.

Lemma insert_desc_perm r l : Permutation (insert_desc r l) (r :: l).
Proof.
  induction l as [|x l IH]; simpl; [reflexivity|].
  destruct (_ <=? _)%N; [reflexivity|].
  rewrite IH. apply perm_swap.
Qed.

Lemma order_desc_perm l : Permutation (order_desc l) l.
Proof.
  induction l as [|x l IH]; simpl; [constructor|].
  rewrite insert_desc_perm. now constructor.
Qed.

Lemma insert_desc_sorted r l :
  Sorted newest_first l -> Sorted newest_first (insert_desc r l).
Proof.
  induction 1 as [|x l Hl IH Hx]; simpl.
  - repeat constructor.
  - destruct (_ <=? _)%N eqn:E.
    + apply N.leb_le in E. repeat constructor; assumption.
    + apply N.leb_gt in E. constructor; [exact IH|].
      destruct Hx as [|y l Hy]; simpl.
      * constructor. unfold newest_first. lia.
      * destruct (_ <=? _)%N; constructor; [unfold newest_first; lia | exact Hy].
Qed.

Lemma order_desc_sorted l : StronglySorted newest_first (order_desc l).
Proof.
  apply Sorted_StronglySorted.
  - intros a b c Hab Hbc. unfold newest_first in *. lia.
  - induction l as [|x l IH]; simpl; [constructor|].
    now apply insert_desc_sorted.
Qed.

(** X1: [getUserPolls] never hands out a row of another principal, whatever
    the engine does: every listed row is a row of [polls] owned by the
    signed-in user; with an error the list is empty; the tables are not
    touched. *)
Theorem getUserPolls_only_own_rows s g w :
  let o := run getUserPolls (isolated s g) w in
  final o = w /\
  (PollsResult.error (value o) <> None -> PollsResult.polls (value o) = []) /\
  forall p, In p (PollsResult.polls (value o)) ->
            In p (polls w) /\ AuthResponse.user s = Some (Poll.user_id p).
Proof.
  unfold run, getUserPolls. quiet_step.
  destruct (AuthResponse.user s) as [u|]; quiet_step.
  { destruct (fault (g 1)); quiet_step.
    - repeat split; try tauto.
    - repeat split; try congruence.
      + apply (Permutation_in _ (order_desc_perm _)) in H.
        now apply filter_In in H.
      + apply (Permutation_in _ (order_desc_perm _)) in H.
        apply filter_In in H. destruct H as [_ H].
        rewrite poll_matches_owner, str_eqb_eq in H. now subst. }
  repeat split; tauto.
Qed.

(** X2: With a user resolved and a listing query that does not fail,
    [getUserPolls] returns no error and exactly the rows the user owns,
    each as often as it is stored, the newest first. *)
Theorem getUserPolls_lists_own_rows_newest_first user_id s g w :
  AuthResponse.user s = Some user_id ->
  fault (g 1) = None ->
  let o := run getUserPolls (isolated s g) w in
  PollsResult.error (value o) = None /\
  Permutation (PollsResult.polls (value o)) (polls_of user_id w) /\
  StronglySorted newest_first (PollsResult.polls (value o)).
Proof.
  intros Hu Hg. unfold run, getUserPolls, polls_of. quiet_step.
  rewrite Hu. quiet_step. rewrite Hg. quiet_step.
  split; [reflexivity|]. split; [|apply order_desc_sorted].
  rewrite order_desc_perm.
  rewrite (filter_ext _ _ (poll_matches_owner user_id)). reflexivity.
Qed.

Lemma getUserPolls_lists_own_rows_newest_first_witness :
  AuthResponse.user (signed_in "alice") = Some (js "alice") /\
  fault (quiet 1) = None /\
  Permutation
    (PollsResult.polls
       (value (run getUserPolls (isolated (signed_in "alice") quiet) three_polls)))
    (polls_of (js "alice") three_polls) /\
  StronglySorted newest_first
    (PollsResult.polls
       (value (run getUserPolls (isolated (signed_in "alice") quiet) three_polls))).
Proof.
  split; [reflexivity|]. split; [reflexivity|].
  apply (@getUserPolls_lists_own_rows_newest_first (js "alice")
           (signed_in "alice") quiet three_polls); reflexivity.
Defined.

Lemma filter_unique_id id user_id p l :
  NoDup (map Poll.id l) -> In p l ->
  Poll.id p = id -> Poll.user_id p = user_id ->
  filter (poll_matches [poll_id_eq id; poll_user_id_eq user_id]) l = [p].
Proof.
  intros Hnd Hin Hid Hu. induction l as [|x l IH]; [destruct Hin|].
  simpl in Hnd. inversion Hnd as [|? ? Hx Hl]; subst. simpl.
  destruct Hin as [->|Hin].
  - replace (poll_matches _ p) with true
      by (symmetry; now apply poll_matches_id_owner).
    f_equal. apply filter_none. intros y Hy. apply not_true_is_false.
    rewrite poll_matches_id_owner. intros [Hy' _]. apply Hx.
    rewrite <- Hy'. now apply in_map.
  - replace (poll_matches _ x) with false; [now apply IH|].
    symmetry. apply not_true_is_false. rewrite poll_matches_id_owner.
    intros [Hx' _]. apply Hx. rewrite Hx'. now apply in_map.
Qed.

(** The result of [getPollById] run alone, by cases. *)
Lemma getPollById_outcome id s g w :
  final (run (getPollById id) (isolated s g) w) = w /\
  value (run (getPollById id) (isolated s g) w)
  = match AuthResponse.error s, AuthResponse.user s with
    | None, Some user_id =>
        match fault (g 1),
              filter (poll_matches [poll_id_eq id; poll_user_id_eq user_id])
                     (polls w) with
        | None, [p] => {| PollResult.poll := Some p; PollResult.error := None |}
        | _, _ => {| PollResult.poll := None;
                     PollResult.error := Some (js "Failed to retrieve poll.") |}
        end
    | _, _ => {| PollResult.poll := None;
                 PollResult.error :=
                   Some (js "You must be logged in to view this poll.") |}
    end.
Proof.
  unfold run, getPollById. quiet_step.
  destruct (AuthResponse.error s); quiet_step; [split; reflexivity|].
  destruct (AuthResponse.user s) as [u|]; quiet_step; [|split; reflexivity].
  destruct (fault (g 1)); quiet_step; [split; reflexivity|].
  destruct (filter _ _) as [|p [|p' rest]]; split; reflexivity.
Qed.

(** X3: [getPollById] returns a poll or an error, never both and never
    neither; a returned poll is a row of [polls] with the requested id,
    owned by the signed-in user, and the session carries no error; the
    tables are not touched.  This holds whatever the engine does. *)
Theorem getPollById_only_own_row id s g w :
  let o := run (getPollById id) (isolated s g) w in
  final o = w /\
  match PollResult.poll (value o) with
  | Some p =>
      PollResult.error (value o) = None /\
      In p (polls w) /\ Poll.id p = id /\
      AuthResponse.user s = Some (Poll.user_id p) /\
      AuthResponse.error s = None
  | None => PollResult.error (value o) <> None
  end.
Proof.
  destruct (getPollById_outcome id s g w) as [Hf Hv]. split; [exact Hf|].
  rewrite Hv. clear Hf Hv.
  destruct (AuthResponse.error s); [discriminate|].
  destruct (AuthResponse.user s) as [u|]; [|discriminate].
  destruct (fault (g 1)); [discriminate|].
  destruct (filter _ _) as [|p [|p' rest]] eqn:E; try discriminate.
  assert (Hin : In p (filter (poll_matches [poll_id_eq id; poll_user_id_eq u])
                             (polls w))) by (rewrite E; now left).
  apply filter_In in Hin. destruct Hin as [Hin Hm].
  apply poll_matches_id_owner in Hm. destruct Hm as [Hid Hu].
  simpl. repeat split; try assumption. now rewrite Hu.
Qed.

(** X4: With poll ids unique in the table, a signed-in owner and a query that
    does not fail, [getPollById] returns the owner's row. *)
Theorem getPollById_finds_own_row id user_id g w p :
  polls_pkey w -> In p (polls w) ->
  Poll.id p = id -> Poll.user_id p = user_id ->
  fault (g 1) = None ->
  let s := {| AuthResponse.user := Some user_id; AuthResponse.error := None |} in
  value (run (getPollById id) (isolated s g) w)
  = {| PollResult.poll := Some p; PollResult.error := None |}.
Proof.
  intros Hpk Hin Hid Hu Hg s.
  destruct (getPollById_outcome id s g w) as [_ ->]. simpl.
  rewrite Hg, (@filter_unique_id id user_id p (polls w) Hpk Hin Hid Hu).
  reflexivity.
Qed.

Lemma getPollById_finds_own_row_witness :
  polls_pkey three_polls /\
  exists p, In p (polls three_polls) /\ Poll.id p = js "p3" /\
            value (run (getPollById (js "p3")) (isolated (signed_in "alice") quiet)
                       three_polls)
            = {| PollResult.poll := Some p; PollResult.error := None |}.
Proof.
  assert (Hpk : polls_pkey three_polls).
  { unfold polls_pkey. simpl.
    repeat constructor; simpl; intros H;
      repeat (destruct H as [H|H]; [vm_compute in H; discriminate H|]);
      exact H. }
  split; [exact Hpk|].
  eexists. split; [right; right; left; reflexivity|]. split; [reflexivity|].
  apply (@getPollById_finds_own_row (js "p3") (js "alice") quiet three_polls _ Hpk).
  - right; right; left; reflexivity.
  - reflexivity.
  - reflexivity.
  - reflexivity.
Defined.

(* ================================================================== *)
(** ** The edit page *)
(* ================================================================== *)

Lemma run_from_bind {R S} (p : Action R) (f : R -> Action S) env :
  forall n w,
    run_from (bind p f) env n w
    = let o := run_from p env n w in
      let o' := run_from (f (value o)) env (n + length (trace o)) (final o) in
      {| value := value o'; final := final o'; trace := trace o ++ trace o' |}.
Proof.
  induction p as [r|A c k IH]; intros n w; simpl.
  - rewrite Nat.add_0_r. now destruct (run_from (f r) env n w).
  - destruct (handle c (session env) (engine env n) (others env n w)) as [a w'].
    rewrite IH. simpl. now rewrite Nat.add_succ_r.
Qed.

(** X5: [EditPollPage] renders the edit form only with a row of [polls] that
    has the requested id and is owned by the signed-in user; hence, when
    the poll is missing or belongs to someone else, it renders the
    not-found page, whatever the engine does.  It changes nothing. *)
Theorem EditPollPage_renders_only_own_poll id s g w :
  let o := run (EditPollPage id) (isolated s g) w in
  final o = w /\
  match value o with
  | EditPollForm p =>
      In p (polls w) /\ Poll.id p = id /\
      AuthResponse.user s = Some (Poll.user_id p) /\
      AuthResponse.error s = None
  | notFound => True
  end /\
  ((forall p, In p (polls w) -> Poll.id p = id ->
              AuthResponse.user s <> Some (Poll.user_id p)) ->
   value o = notFound).
Proof.
  unfold run, EditPollPage. rewrite run_from_bind.
  destruct (getPollById_outcome id s g w) as [Hf Hv]. unfold run in Hf, Hv.
  destruct (run_from (getPollById id) (isolated s g) 0 w) as [r wf tr].
  simpl in *. subst wf r.
  destruct (AuthResponse.error s); [repeat split|].
  destruct (AuthResponse.user s) as [u|]; [|repeat split].
  destruct (fault (g 1)); [repeat split|].
  destruct (filter _ _) as [|p [|p' rest]] eqn:E; try solve [repeat split].
  assert (Hin : In p (filter (poll_matches [poll_id_eq id; poll_user_id_eq u])
                             (polls w))) by (rewrite E; now left).
  apply filter_In in Hin. destruct Hin as [Hin Hm].
  apply poll_matches_id_owner in Hm. destruct Hm as [Hid Hu].
  simpl. repeat split; try assumption; try (now rewrite Hu).
  intros Hno. exfalso. apply (Hno p Hin Hid). now rewrite Hu.
Qed.

(** X6: With poll ids unique in the table, a signed-in owner and a query that
    does not fail, [EditPollPage] renders the edit form with the owner's
    row. *)
Theorem EditPollPage_renders_own_poll id user_id g w p :
  polls_pkey w -> In p (polls w) ->
  Poll.id p = id -> Poll.user_id p = user_id ->
  fault (g 1) = None ->
  let s := {| AuthResponse.user := Some user_id; AuthResponse.error := None |} in
  value (run (EditPollPage id) (isolated s g) w) = EditPollForm p.
Proof.
  intros Hpk Hin Hid Hu Hg s. unfold run, EditPollPage. rewrite run_from_bind.
  destruct (getPollById_outcome id s g w) as [_ Hv]. unfold run in Hv.
  destruct (run_from (getPollById id) (isolated s g) 0 w) as [r wf tr].
  simpl in *. subst r.
  rewrite Hg, (@filter_unique_id id user_id p (polls w) Hpk Hin Hid Hu).
  reflexivity.
Qed.

Lemma EditPollPage_renders_own_poll_witness :
  exists p, In p (polls three_polls) /\ Poll.id p = js "p3" /\
            value (run (EditPollPage (js "p3")) (isolated (signed_in "alice") quiet)
                       three_polls)
            = EditPollForm p.
Proof.
  eexists. split; [right; right; left; reflexivity|]. split; [reflexivity|].
  apply (@EditPollPage_renders_own_poll (js "p3") (js "alice") quiet three_polls).
  - unfold polls_pkey. simpl.
    repeat constructor; simpl; intros H;
      repeat (destruct H as [H|H]; [vm_compute in H; discriminate H|]);
      exact H.
  - right; right; left; reflexivity.
  - reflexivity.
  - reflexivity.
  - reflexivity.
Defined.

(* ================================================================== *)
(** ** Writing polls: [createPoll], [updatePoll] and [deletePoll] *)
(* ================================================================== *)

(** The results of the three actions run alone, by cases. *)
Lemma deletePoll_outcome id s g w :
  let o := run (deletePoll id) (isolated s g) w in
  match AuthResponse.error s, AuthResponse.user s with
  | None, Some user_id =>
      match fault (g 1) with
      | Some _ => value o = failure "Failed to delete poll." /\ final o = w
      | None =>
          value o = success /\
          final o
          = {| polls := filter (fun p => negb (poll_matches
                                   [poll_id_eq id; poll_user_id_eq user_id] p))
                               (polls w);
               votes := cascade (filter (poll_matches
                                   [poll_id_eq id; poll_user_id_eq user_id])
                                        (polls w)) (votes w);
               revalidated := revalidated w ++ [js "/polls"] |}
      end
  | _, _ => value o = failure "You must be logged in to delete a poll." /\
            final o = w
  end.
Proof.
  unfold run, deletePoll. quiet_step.
  destruct (AuthResponse.error s); quiet_step; [split; reflexivity|].
  destruct (AuthResponse.user s); quiet_step; [|split; reflexivity].
  destruct (fault (g 1)); quiet_step; split; reflexivity.
Qed.

Lemma createPoll_outcome formData q s g w :
  question_of formData = Some q -> question_ok q ->
  2 <= length (filter Boolean (options_of formData)) ->
  Forall option_ok (filter Boolean (options_of formData)) ->
  let o := run (createPoll formData) (isolated s g) w in
  match AuthResponse.error s, AuthResponse.user s with
  | Some _, _ => value o = failure "Authentication failed." /\ final o = w
  | None, None =>
      value o = failure "You must be logged in to create a poll." /\ final o = w
  | None, Some user_id =>
      if match fault (g 1) with
         | Some _ => true
         | None => existsb (fun p => str_eqb (Poll.id p) (new_id (g 1))) (polls w)
         end
      then value o = failure "Failed to create poll." /\ final o = w
      else
        value o = success /\
        final o
        = {| polls := polls w ++
                      [{| Poll.id := new_id (g 1); Poll.user_id := user_id;
                          Poll.question := q;
                          Poll.options := filter Boolean (options_of formData);
                          Poll.created_at := now (g 1) |}];
             votes := votes w;
             revalidated := revalidated w ++ [js "/polls"] |}
  end.
Proof.
  intros Hq Hok Hn Hf. pass_validation formData Hq Hok Hn Hf. quiet_step.
  destruct (AuthResponse.error s); quiet_step; [split; reflexivity|].
  destruct (AuthResponse.user s); quiet_step; [|split; reflexivity].
  destruct (fault (g 1)); quiet_step; [split; reflexivity|].
  destruct (existsb _ _); quiet_step; split; reflexivity.
Qed.

Lemma updatePoll_outcome pollId formData q s g w :
  question_of formData = Some q -> question_ok q ->
  2 <= length (filter Boolean (options_of formData)) ->
  Forall option_ok (filter Boolean (options_of formData)) ->
  let o := run (updatePoll pollId formData) (isolated s g) w in
  match AuthResponse.error s, AuthResponse.user s with
  | Some _, _ => value o = failure "Authentication failed." /\ final o = w
  | None, None =>
      value o = failure "You must be logged in to update a poll." /\ final o = w
  | None, Some user_id =>
      match fault (g 1) with
      | Some _ => value o = failure "Failed to update poll." /\ final o = w
      | None =>
          value o = success /\
          final o
          = set_polls w
              (map (fun p =>
                      if poll_matches [poll_id_eq pollId; poll_user_id_eq user_id] p
                      then {| Poll.id := Poll.id p;
                              Poll.user_id := Poll.user_id p;
                              Poll.question := q;
                              Poll.options := filter Boolean (options_of formData);
                              Poll.created_at := Poll.created_at p |}
                      else p) (polls w))
      end
  end.
Proof.
  intros Hq Hok Hn Hf. pass_validation formData Hq Hok Hn Hf. quiet_step.
  destruct (AuthResponse.error s); quiet_step; [split; reflexivity|].
  destruct (AuthResponse.user s); quiet_step; [|split; reflexivity].
  destruct (fault (g 1)); quiet_step; split; reflexivity.
Qed.

(** A form that is not accepted makes both actions return before any
    call. *)
Lemma rejected_returns formData pollId env w :
  ~ accepted formData ->
  exists m, ValidationError m /\
            run (createPoll formData) env w = returned {| Act.error := Some m |} w /\
            run (updatePoll pollId formData) env w
            = returned {| Act.error := Some m |} w.
Proof.
  intros Hno.
  destruct (accepted_dec formData)
    as [Ha|[Hr|[(q & Hq & Hok & Hn)|(q & Hq & Hok & Hn & Hf)]]].
  - contradiction.
  - exists InvalidQuestion. split; [left; reflexivity|].
    exact (rejects_question formData pollId env w Hr).
  - exists InsufficientOptions. split; [right; left; reflexivity|].
    exact (rejects_too_few formData pollId env w Hq Hok Hn).
  - exists InvalidOption. split; [right; right; reflexivity|].
    exact (rejects_option formData pollId env w Hq Hok Hn Hf).
Qed.

Lemma accepted_or_not formData : accepted formData \/ ~ accepted formData.
Proof.
  destruct (accepted_dec formData)
    as [Ha|[Hr|[(q & Hq & Hok & Hn)|(q & Hq & Hok & Hn & Hf)]]].
  - now left.
  - right. intros (q & Hq & Hok & _). exact (Hr q Hq Hok).
  - right. intros (q' & Hq' & _ & Hn' & _). lia.
  - right. intros (q' & _ & _ & _ & Hf'). contradiction.
Qed.

Lemma existsb_id_false id (l : list Poll.row) :
  existsb (fun p => str_eqb (Poll.id p) id) l = false
  <-> forall p, In p l -> Poll.id p <> id.
Proof.
  split.
  - intros H p Hp E. apply not_true_iff_false in H. apply H.
    apply existsb_exists. exists p. split; [exact Hp | now apply str_eqb_eq].
  - intros H. apply not_true_iff_false. intros E.
    apply existsb_exists in E. destruct E as (p & Hp & E).
    apply str_eqb_eq in E. exact (H p Hp E).
Qed.

(** X7: When the three writing actions succeed, run alone.  [createPoll]: the
    form is accepted, the session has a user and no error, the engine does
    not fail the insert and the generated id is not in use.  [updatePoll]:
    the same without the id condition, and whether or not any row
    matches.  [deletePoll]: the session has a user and no error and the
    engine does not fail the delete, whether or not any row matches. *)
Theorem writes_succeed_iff formData id s g w :
  let signed_in_ok :=
    AuthResponse.error s = None /\ AuthResponse.user s <> None in
  (Act.error (value (run (createPoll formData) (isolated s g) w)) = None
   <-> accepted formData /\ signed_in_ok /\ fault (g 1) = None /\
       forall p, In p (polls w) -> Poll.id p <> new_id (g 1)) /\
  (Act.error (value (run (updatePoll id formData) (isolated s g) w)) = None
   <-> accepted formData /\ signed_in_ok /\ fault (g 1) = None) /\
  (Act.error (value (run (deletePoll id) (isolated s g) w)) = None
   <-> signed_in_ok /\ fault (g 1) = None).
Proof.
  intros signed_in_ok. subst signed_in_ok.
  assert (Hrej : ~ accepted formData ->
            Act.error (value (run (createPoll formData) (isolated s g) w)) <> None /\
            Act.error (value (run (updatePoll id formData) (isolated s g) w)) <> None).
  { intros Hno.
    destruct (rejected_returns id (isolated s g) w Hno) as (m & _ & -> & ->).
    split; discriminate. }
  split; [|split].
  - destruct (accepted_or_not formData) as [Ha|Hno];
      [|split; [intros H; now destruct (Hrej Hno) | intros [Ha _]; contradiction]].
    destruct Ha as (q & Hq & Hok & Hn & Hf).
    assert (Ha : accepted formData) by (exists q; tauto).
    pose proof (@createPoll_outcome formData q s g w Hq Hok Hn Hf) as Ho.
    simpl in Ho.
    destruct (AuthResponse.error s) as [e|];
      [destruct Ho as [-> _]; split;
       [discriminate | intros (_ & [E _] & _); discriminate E]|].
    destruct (AuthResponse.user s) as [u|];
      [|destruct Ho as [-> _]; split;
        [discriminate | intros (_ & [_ E] & _); now contradiction E]].
    destruct (fault (g 1)) as [e|];
      [destruct Ho as [-> _]; split;
       [discriminate | intros (_ & _ & E & _); discriminate E]|].
    destruct (existsb _ _) eqn:E; destruct Ho as [-> _].
    + split; [discriminate|]. intros (_ & _ & _ & Hfresh).
      apply (proj2 (@existsb_id_false _ _)) in Hfresh. congruence.
    + pose proof (proj1 (@existsb_id_false _ _) E) as Hfresh.
      split; [|reflexivity].
      intros _. repeat split; try assumption. discriminate.
  - destruct (accepted_or_not formData) as [Ha|Hno];
      [|split; [intros H; now destruct (Hrej Hno) | intros [Ha _]; contradiction]].
    destruct Ha as (q & Hq & Hok & Hn & Hf).
    assert (Ha : accepted formData) by (exists q; tauto).
    pose proof (@updatePoll_outcome id formData q s g w Hq Hok Hn Hf) as Ho.
    simpl in Ho.
    destruct (AuthResponse.error s) as [e|];
      [destruct Ho as [-> _]; split;
       [discriminate | intros (_ & [E _] & _); discriminate E]|].
    destruct (AuthResponse.user s) as [u|];
      [|destruct Ho as [-> _]; split;
        [discriminate | intros (_ & [_ E] & _); now contradiction E]].
    destruct (fault (g 1)) as [e|]; destruct Ho as [-> _].
    + split; [discriminate | intros (_ & _ & E); discriminate E].
    + split; [|reflexivity]. intros _. repeat split; try assumption. discriminate.
  - pose proof (deletePoll_outcome id s g w) as Ho. cbv zeta in Ho.
    destruct (AuthResponse.error s) as [e|];
      [destruct Ho as [-> _]; split;
       [discriminate | intros ([E _] & _); discriminate E]|].
    destruct (AuthResponse.user s) as [u|];
      [|destruct Ho as [-> _]; split;
        [discriminate | intros ([_ E] & _); now contradiction E]].
    destruct (fault (g 1)) as [e|]; destruct Ho as [-> _].
    + split; [discriminate | intros (_ & E); discriminate E].
    + split; [|reflexivity]. intros _. repeat split. discriminate.
Qed.

(** Case analysis of the three writing actions run alone: each goal is
    left with the value and the final tables of one case substituted. *)
Ltac write_cases formData id s g w :=
  let create_update :=
    (destruct (accepted_or_not formData) as [(?q & ?Hq & ?Hok & ?Hn & ?Hf)|?Hno];
     [ match goal with
       | Hq : question_of formData = Some ?q, Hok : question_ok ?q,
         Hn : 2 <= _, Hf : Forall option_ok _ |- _ =>
           let Hc := fresh "Hc" in
           let Hu := fresh "Hu" in
           pose proof (@createPoll_outcome formData q s g w Hq Hok Hn Hf) as Hc;
           pose proof (@updatePoll_outcome id formData q s g w Hq Hok Hn Hf) as Hu;
           cbv zeta in Hc, Hu
       end
     | match goal with
       | Hno : ~ accepted formData |- _ =>
           destruct (rejected_returns id (isolated s g) w Hno)
             as (?m & _ & -> & ->)
       end ]) in
  let Hd := fresh "Hd" in
  pose proof (deletePoll_outcome id s g w) as Hd; cbv zeta in Hd;
  create_update;
  destruct (AuthResponse.error s), (AuthResponse.user s), (fault (g 1));
  try match goal with
      | H : (if existsb ?f ?l then _ else _) |- _ => destruct (existsb f l) eqn:?
      end;
  repeat match goal with
         | H : value _ = _ /\ final _ = _ |- _ =>
             let Hv := fresh "Hv" in
             let Hw := fresh "Hw" in
             destruct H as [Hv Hw]; rewrite ?Hv, ?Hw; clear Hv Hw
         end.

(** X8: A writing action that returns an error has written nothing: run
    alone, [createPoll], [updatePoll] and [deletePoll] leave the tables as
    they were whenever they fail. *)
Theorem failed_writes_change_nothing formData id s g w :
  let c := run (createPoll formData) (isolated s g) w in
  let u := run (updatePoll id formData) (isolated s g) w in
  let d := run (deletePoll id) (isolated s g) w in
  match Act.error (value c) with Some _ => final c = w | None => True end /\
  match Act.error (value u) with Some _ => final u = w | None => True end /\
  match Act.error (value d) with Some _ => final d = w | None => True end.
Proof.
  intros c u d. subst c u d.
  write_cases formData id s g w; simpl; repeat split.
Qed.

(** X9: [createPoll] and [deletePoll] revalidate the path [/polls] exactly
    when they succeed; [updatePoll] never revalidates anything, also when
    it succeeds. *)
Theorem revalidation_follows_success formData id s g w :
  let c := run (createPoll formData) (isolated s g) w in
  let u := run (updatePoll id formData) (isolated s g) w in
  let d := run (deletePoll id) (isolated s g) w in
  revalidated (final c)
  = match Act.error (value c) with
    | None => revalidated w ++ [js "/polls"]
    | Some _ => revalidated w
    end /\
  revalidated (final d)
  = match Act.error (value d) with
    | None => revalidated w ++ [js "/polls"]
    | Some _ => revalidated w
    end /\
  revalidated (final u) = revalidated w.
Proof.
  intros c u d. subst c u d.
  write_cases formData id s g w; simpl; repeat split.
Qed.

(** What a successful [deletePoll] run alone found and did. *)
Lemma deletePoll_success_inv id s g w :
  Act.error (value (run (deletePoll id) (isolated s g) w)) = None ->
  exists user_id,
    AuthResponse.user s = Some user_id /\
    polls (final (run (deletePoll id) (isolated s g) w))
    = filter (fun p => negb (poll_matches [poll_id_eq id; poll_user_id_eq user_id] p))
             (polls w) /\
    votes (final (run (deletePoll id) (isolated s g) w))
    = cascade (filter (poll_matches [poll_id_eq id; poll_user_id_eq user_id])
                      (polls w)) (votes w).
Proof.
  pose proof (deletePoll_outcome id s g w) as Ho. cbv zeta in Ho.
  destruct (AuthResponse.error s); [destruct Ho as [-> _]; discriminate|].
  destruct (AuthResponse.user s) as [u|]; [|destruct Ho as [-> _]; discriminate].
  destruct (fault (g 1)); [destruct Ho as [-> _]; discriminate|].
  destruct Ho as [_ ->]. intros _. exists u. repeat split.
Qed.

Lemma cascade_In gone v vs :
  In v (cascade gone vs)
  <-> In v vs /\ ~ exists p, In p gone /\ Poll.id p = Vote.poll_id v.
Proof.
  unfold cascade. rewrite filter_In, negb_true_iff.
  rewrite <- not_true_iff_false, existsb_exists.
  split; intros [Hv Hno]; split; try exact Hv; intros (p & Hp & E); apply Hno;
    exists p; split; try exact Hp; now apply str_eqb_eq.
Qed.

(** X10: A successful [deletePoll] run alone removes exactly the rows of
    [polls] that have the given id and belong to the caller, and, through
    the cascade of the schema, exactly the votes cast on a removed row;
    every other poll and vote stays. *)
Theorem deletePoll_removes_poll_and_its_votes id s g w :
  let o := run (deletePoll id) (isolated s g) w in
  Act.error (value o) = None ->
  exists user_id,
    AuthResponse.user s = Some user_id /\
    (forall p, In p (polls (final o))
               <-> In p (polls w) /\ ~ (Poll.id p = id /\ Poll.user_id p = user_id)) /\
    (forall v, In v (votes (final o))
               <-> In v (votes w) /\
                   ~ (Vote.poll_id v = id /\
                      exists p, In p (polls w) /\ Poll.id p = id /\
                                Poll.user_id p = user_id)).
Proof.
  intros o Hok. subst o.
  destruct (deletePoll_success_inv id s g w Hok) as (u & Hu & Hp & Hv).
  exists u. split; [exact Hu|]. rewrite Hp, Hv. split.
  - intros p. rewrite filter_In, negb_true_iff, <- not_true_iff_false,
      poll_matches_id_owner. reflexivity.
  - intros v. rewrite cascade_In. split; intros [Hin Hno]; split; try exact Hin.
    + intros (Hvid & p & Hpin & Hid & Hpu). apply Hno. exists p. split.
      * apply filter_In. split; [exact Hpin|]. now apply poll_matches_id_owner.
      * congruence.
    + intros (p & Hpin & Hid). apply filter_In in Hpin. destruct Hpin as [Hpin Hm].
      apply poll_matches_id_owner in Hm. destruct Hm as [Hpid Hpu].
      apply Hno. split; [congruence|]. exists p. tauto.
Qed.

Lemma deletePoll_removes_poll_and_its_votes_witness :
  Act.error (value (run (deletePoll (js "p1")) (isolated (signed_in "alice") quiet)
                        three_polls)) = None /\
  map Poll.id (polls (final (run (deletePoll (js "p1"))
                                 (isolated (signed_in "alice") quiet) three_polls)))
  = [js "p2"; js "p3"] /\
  exists user_id,
    AuthResponse.user (signed_in "alice") = Some user_id /\
    (forall p, In p (polls (final (run (deletePoll (js "p1"))
                                       (isolated (signed_in "alice") quiet)
                                       three_polls)))
               <-> In p (polls three_polls) /\
                   ~ (Poll.id p = js "p1" /\ Poll.user_id p = user_id)) /\
    (forall v, In v (votes (final (run (deletePoll (js "p1"))
                                       (isolated (signed_in "alice") quiet)
                                       three_polls)))
               <-> In v (votes three_polls) /\
                   ~ (Vote.poll_id v = js "p1" /\
                      exists p, In p (polls three_polls) /\ Poll.id p = js "p1" /\
                                Poll.user_id p = user_id)).
Proof.
  split; [reflexivity|]. split; [reflexivity|].
  apply (@deletePoll_removes_poll_and_its_votes (js "p1") (signed_in "alice")
           quiet three_polls).
  reflexivity.
Defined.

Lemma submitVote_no_poll pollId i s g w :
  filter (poll_matches [poll_id_eq pollId]) (polls w) = [] ->
  let o := run (submitVote pollId i) (isolated s g) w in
  Act.error (value o) <> None /\ final o = w /\
  (AuthResponse.user s <> None -> Boolean pollId = true ->
   value o = failure "Poll not found or an error occurred.").
Proof.
  intros Hnone. unfold run, submitVote. quiet_step.
  destruct (AuthResponse.user s); quiet_step;
    [|repeat split; [discriminate | intros H; now contradiction H]].
  destruct (Boolean pollId); quiet_step;
    [|repeat split; [discriminate | intros _ H; discriminate H]].
  destruct (fault (g 1)); quiet_step; [repeat split; discriminate|].
  rewrite Hnone. quiet_step. repeat split. discriminate.
Qed.

(** X11: After a successful [deletePoll] of a poll id whose rows all belong to
    the caller, in a table where every vote belongs to a poll, the id is
    gone for everyone: no poll and no vote with that id is left,
    [getPollById] returns no poll for it, and [submitVote] on it fails
    without writing, with "Poll not found or an error occurred." for a
    signed-in voter. *)
Theorem deleted_poll_is_gone id s g w s' g' i :
  votes_attached w ->
  (forall p, In p (polls w) -> Poll.id p = id ->
             AuthResponse.user s = Some (Poll.user_id p)) ->
  Act.error (value (run (deletePoll id) (isolated s g) w)) = None ->
  let w' := final (run (deletePoll id) (isolated s g) w) in
  (forall p, In p (polls w') -> Poll.id p <> id) /\
  (forall v, In v (votes w') -> Vote.poll_id v <> id) /\
  PollResult.poll (value (run (getPollById id) (isolated s' g') w')) = None /\
  Act.error (value (run (submitVote id i) (isolated s' g') w')) <> None /\
  final (run (submitVote id i) (isolated s' g') w') = w' /\
  (AuthResponse.user s' <> None -> id <> [] ->
   value (run (submitVote id i) (isolated s' g') w')
   = failure "Poll not found or an error occurred.").
Proof.
  intros Hatt Hown Hok w'.
  destruct (deletePoll_success_inv id s g w Hok) as (u & Hu & Hp & Hv).
  fold w' in Hp, Hv.
  assert (Hpolls : forall p, In p (polls w') -> Poll.id p <> id).
  { intros p Hin Hid. rewrite Hp in Hin. apply filter_In in Hin.
    destruct Hin as [Hin Hm]. apply negb_true_iff, not_true_iff_false in Hm.
    apply Hm, poll_matches_id_owner. split; [exact Hid|].
    pose proof (Hown p Hin Hid) as E. rewrite Hu in E. now injection E. }
  assert (Hvotes : forall v, In v (votes w') -> Vote.poll_id v <> id).
  { intros v Hin Hid. rewrite Hv in Hin. apply cascade_In in Hin.
    destruct Hin as [Hin Hno]. destruct (Hatt v Hin) as (p & Hpin & Hpid).
    apply Hno. exists p. split; [|exact Hpid].
    apply filter_In. split; [exact Hpin|]. apply poll_matches_id_owner.
    split; [congruence|].
    assert (E : AuthResponse.user s = Some (Poll.user_id p))
      by (apply Hown; [exact Hpin | congruence]).
    rewrite Hu in E. now injection E. }
  assert (Hnone : forall fs, In (poll_id_eq id) fs ->
                             filter (poll_matches fs) (polls w') = []).
  { intros fs Hfs. apply filter_none. intros p Hin.
    apply not_true_iff_false. intros Hm. apply (Hpolls p Hin).
    unfold poll_matches in Hm. rewrite forallb_forall in Hm.
    now apply str_eqb_eq, (Hm (poll_id_eq id) Hfs). }
  split; [exact Hpolls|]. split; [exact Hvotes|]. split.
  - destruct (getPollById_outcome id s' g' w') as [_ ->].
    destruct (AuthResponse.error s'); [reflexivity|].
    destruct (AuthResponse.user s') as [u'|]; [|reflexivity].
    rewrite (Hnone [poll_id_eq id; poll_user_id_eq u']) by (now left).
    now destruct (fault (g' 1)).
  - destruct (@submitVote_no_poll id i s' g' w' (Hnone [poll_id_eq id]
                (or_introl eq_refl))) as (He & Hf & Hm).
    repeat split; try assumption.
    intros Hs Hid. apply Hm; [exact Hs|]. destruct id; [contradiction|reflexivity].
Qed.

Lemma deleted_poll_is_gone_witness :
  votes_attached three_polls /\
  value (run (submitVote (js "p1") 1) (isolated (signed_in "carol") quiet)
             (final (run (deletePoll (js "p1")) (isolated (signed_in "alice") quiet)
                         three_polls)))
  = failure "Poll not found or an error occurred.".
Proof.
  assert (Hatt : votes_attached three_polls).
  { intros v [<-|[]]. eexists. split; [left; reflexivity | reflexivity]. }
  split; [exact Hatt|].
  apply (@deleted_poll_is_gone (js "p1") (signed_in "alice") quiet three_polls
           (signed_in "carol") quiet 1%Z Hatt).
  - intros p [<-|[<-|[<-|[]]]] H; try reflexivity; vm_compute in H; discriminate H.
  - reflexivity.
  - discriminate.
  - discriminate.
Defined.

(* ================================================================== *)
(** ** The constraints of the schema under the actions *)
(* ================================================================== *)







(* ================================================================== *)
(** ** What is stored, and reading it back *)
(* ================================================================== *)

(** What a successful [createPoll] or [updatePoll] run alone found and
    did. *)
Lemma createPoll_success_inv formData s g w :
  Act.error (value (run (createPoll formData) (isolated s g) w)) = None ->
  exists user_id q,
    AuthResponse.user s = Some user_id /\ AuthResponse.error s = None /\
    question_of formData = Some q /\ question_ok q /\
    2 <= length (filter Boolean (options_of formData)) /\
    Forall option_ok (filter Boolean (options_of formData)) /\
    (forall p, In p (polls w) -> Poll.id p <> new_id (g 1)) /\
    final (run (createPoll formData) (isolated s g) w)
    = {| polls := polls w ++
                  [{| Poll.id := new_id (g 1); Poll.user_id := user_id;
                      Poll.question := q;
                      Poll.options := filter Boolean (options_of formData);
                      Poll.created_at := now (g 1) |}];
         votes := votes w;
         revalidated := revalidated w ++ [js "/polls"] |}.
Proof.
  destruct (accepted_or_not formData) as [(q & Hq & Hok & Hn & Hf)|Hno].
  - pose proof (@createPoll_outcome formData q s g w Hq Hok Hn Hf) as Ho.
    cbv zeta in Ho.
    destruct (AuthResponse.error s); [destruct Ho as [-> _]; discriminate|].
    destruct (AuthResponse.user s) as [u|]; [|destruct Ho as [-> _]; discriminate].
    destruct (fault (g 1)); [destruct Ho as [-> _]; discriminate|].
    destruct (existsb _ _) eqn:E; [destruct Ho as [-> _]; discriminate|].
    destruct Ho as [_ ->]. intros _. exists u, q.
    repeat match goal with |- _ /\ _ => split end;
      try assumption; try reflexivity.
    exact (proj1 (@existsb_id_false _ _) E).
  - destruct (rejected_returns [] (isolated s g) w Hno) as (m & _ & -> & _).
    discriminate.
Qed.

Lemma updatePoll_success_inv pollId formData s g w :
  Act.error (value (run (updatePoll pollId formData) (isolated s g) w)) = None ->
  exists user_id q,
    AuthResponse.user s = Some user_id /\ AuthResponse.error s = None /\
    question_of formData = Some q /\ question_ok q /\
    2 <= length (filter Boolean (options_of formData)) /\
    Forall option_ok (filter Boolean (options_of formData)) /\
    final (run (updatePoll pollId formData) (isolated s g) w)
    = set_polls w
        (map (fun p =>
                if poll_matches [poll_id_eq pollId; poll_user_id_eq user_id] p
                then {| Poll.id := Poll.id p;
                        Poll.user_id := Poll.user_id p;
                        Poll.question := q;
                        Poll.options := filter Boolean (options_of formData);
                        Poll.created_at := Poll.created_at p |}
                else p) (polls w)).
Proof.
  destruct (accepted_or_not formData) as [(q & Hq & Hok & Hn & Hf)|Hno].
  - pose proof (@updatePoll_outcome pollId formData q s g w Hq Hok Hn Hf) as Ho.
    cbv zeta in Ho.
    destruct (AuthResponse.error s); [destruct Ho as [-> _]; discriminate|].
    destruct (AuthResponse.user s) as [u|]; [|destruct Ho as [-> _]; discriminate].
    destruct (fault (g 1)); [destruct Ho as [-> _]; discriminate|].
    destruct Ho as [_ ->]. intros _. exists u, q.
    repeat match goal with |- _ /\ _ => split end;
      try assumption; reflexivity.
  - destruct (rejected_returns pollId (isolated s g) w Hno) as (m & _ & _ & ->).
    discriminate.
Qed.

Lemma submitVote_keeps_polls pollId i s g w :
  polls (final (run (submitVote pollId i) (isolated s g) w)) = polls w.
Proof. unfold run, submitVote. split_run; reflexivity. Qed.

Lemma well_formed_filter (keep : Poll.row -> bool) l :
  Forall poll_well_formed l -> Forall poll_well_formed (filter keep l).
Proof.
  rewrite !Forall_forall. intros H p Hp. apply filter_In in Hp. now apply H.
Qed.

(** X13: No action stores a poll that breaks the rules of the form: when every
    stored poll has a question of 1 to 255 code units that is not blank and
    at least two options, each of 1 to 100 code units and not blank, the
    same holds after [createPoll], [updatePoll], [deletePoll] and
    [submitVote], whether they succeed or fail. *)
Theorem stored_polls_stay_well_formed formData id optionIndex s g w :
  Forall poll_well_formed (polls w) ->
  Forall poll_well_formed (polls (final (run (createPoll formData) (isolated s g) w))) /\
  Forall poll_well_formed (polls (final (run (updatePoll id formData) (isolated s g) w))) /\
  Forall poll_well_formed (polls (final (run (deletePoll id) (isolated s g) w))) /\
  Forall poll_well_formed
    (polls (final (run (submitVote id optionIndex) (isolated s g) w))).
Proof.
  intros Hw. rewrite submitVote_keeps_polls.
  assert (Hupd : forall q keep,
             question_ok q ->
             2 <= length (filter Boolean (options_of formData)) ->
             Forall option_ok (filter Boolean (options_of formData)) ->
             Forall poll_well_formed
               (map (fun p : Poll.row =>
                       if keep p : bool
                       then {| Poll.id := Poll.id p;
                               Poll.user_id := Poll.user_id p;
                               Poll.question := q;
                               Poll.options := filter Boolean (options_of formData);
                               Poll.created_at := Poll.created_at p |}
                       else p) (polls w))).
  { intros q keep Hok Hn Hf. apply Forall_map. rewrite Forall_forall in Hw |- *.
    intros p Hp. destruct (keep p); [|now apply Hw].
    split; [assumption | split; assumption]. }
  write_cases formData id s g w; simpl; repeat split; try assumption;
    try (now apply well_formed_filter); try (now apply Hupd).
  all: apply Forall_app; split; [exact Hw|]; constructor; [|constructor].
  all: split; [assumption | split; assumption].
Qed.

Lemma three_polls_well_formed : Forall poll_well_formed (polls three_polls).
Proof.
  repeat constructor; vm_compute; lia.
Qed.

Lemma stored_polls_stay_well_formed_witness :
  Forall poll_well_formed (polls three_polls) /\
  Forall poll_well_formed
    (polls (final (run (updatePoll (js "p3") (form (js "Dogs?") [js "Yes"; js "No"]))
                       (isolated (signed_in "alice") quiet) three_polls))).
Proof.
  split; [exact three_polls_well_formed|].
  apply (@stored_polls_stay_well_formed (form (js "Dogs?") [js "Yes"; js "No"])
           (js "p3") 0%Z (signed_in "alice") quiet three_polls
           three_polls_well_formed).
Defined.

Lemma getUserPolls_outcome user_id s g w :
  AuthResponse.user s = Some user_id -> fault (g 1) = None ->
  value (run getUserPolls (isolated s g) w)
  = {| PollsResult.polls := order_desc (polls_of user_id w);
       PollsResult.error := None |}.
Proof.
  intros Hu Hg. unfold run, getUserPolls, polls_of. quiet_step.
  rewrite Hu. quiet_step. rewrite Hg. quiet_step.
  now rewrite (filter_ext _ _ (poll_matches_owner user_id)).
Qed.

(** X14: A poll that [createPoll] has just stored can be read back by its
    creator: [getPollById] with the generated id returns the row, which
    holds the submitted question and the non-empty submitted options in
    their order, and [getUserPolls] lists it together with the polls the
    creator already had. *)
Theorem created_poll_is_read_back formData s g g' w :
  Act.error (value (run (createPoll formData) (isolated s g) w)) = None ->
  fault (g' 1) = None ->
  let w' := final (run (createPoll formData) (isolated s g) w) in
  exists user_id p,
    AuthResponse.user s = Some user_id /\
    Poll.id p = new_id (g 1) /\ Poll.user_id p = user_id /\
    question_of formData = Some (Poll.question p) /\
    Poll.options p = filter Boolean (options_of formData) /\
    value (run (getPollById (new_id (g 1))) (isolated s g') w')
    = {| PollResult.poll := Some p; PollResult.error := None |} /\
    PollsResult.error (value (run getUserPolls (isolated s g') w')) = None /\
    Permutation (PollsResult.polls (value (run getUserPolls (isolated s g') w')))
                (p :: polls_of user_id w).
Proof.
  intros Hok Hg w'.
  destruct (createPoll_success_inv formData s g w Hok)
    as (u & q & Hu & He & Hq & _ & _ & _ & Hfresh & Hw').
  fold w' in Hw'. exists u.
  exists {| Poll.id := new_id (g 1); Poll.user_id := u; Poll.question := q;
            Poll.options := filter Boolean (options_of formData);
            Poll.created_at := now (g 1) |}.
  split; [exact Hu|]. split; [reflexivity|]. split; [reflexivity|].
  split; [exact Hq|]. split; [reflexivity|]. split; [|split].
  - destruct (getPollById_outcome (new_id (g 1)) s g' w') as [_ ->].
    rewrite He, Hu, Hg, Hw'. simpl. rewrite filter_app. simpl.
    rewrite filter_none.
    + replace (poll_matches _ _) with true; [reflexivity|].
      symmetry. now apply poll_matches_id_owner.
    + intros p Hp. apply not_true_iff_false. rewrite poll_matches_id_owner.
      intros [Hid _]. exact (Hfresh p Hp Hid).
  - now rewrite (@getUserPolls_outcome u s g' w' Hu Hg).
  - rewrite (@getUserPolls_outcome u s g' w' Hu Hg). simpl.
    rewrite order_desc_perm. unfold polls_of. rewrite Hw'. simpl.
    rewrite filter_app. simpl. rewrite str_eqb_refl.
    symmetry. apply Permutation_cons_append.
Qed.

Lemma created_poll_is_read_back_witness :
  Act.error (value (run (createPoll (form (js "Color?") [js "Red"; js ""; js "Blue"]))
                        (isolated (signed_in "u1") quiet) no_polls)) = None /\
  exists p,
    Poll.options p = [js "Red"; js "Blue"] /\
    PollsResult.polls
      (value (run getUserPolls (isolated (signed_in "u1") quiet)
                  (final (run (createPoll (form (js "Color?")
                                                [js "Red"; js ""; js "Blue"]))
                              (isolated (signed_in "u1") quiet) no_polls))))
    = [p].
Proof.
  split; [reflexivity|].
  destruct (@created_poll_is_read_back
              (form (js "Color?") [js "Red"; js ""; js "Blue"])
              (signed_in "u1") quiet quiet no_polls eq_refl eq_refl)
    as (u & p & _ & _ & _ & _ & Hopts & _ & _ & Hperm).
  exists p. split; [exact Hopts|].
  apply Permutation_length_1_inv. symmetry. exact Hperm.
Defined.

(** X15: After a successful [updatePoll] of a poll the caller owns, in a table
    with unique poll ids, [getPollById] returns that poll with the
    submitted question and the non-empty submitted options, and with the
    id, owner and creation time it had. *)
Theorem updated_poll_is_read_back pollId formData s g g' w p :
  polls_pkey w -> In p (polls w) -> Poll.id p = pollId ->
  AuthResponse.user s = Some (Poll.user_id p) ->
  Act.error (value (run (updatePoll pollId formData) (isolated s g) w)) = None ->
  fault (g' 1) = None ->
  let w' := final (run (updatePoll pollId formData) (isolated s g) w) in
  exists q,
    question_of formData = Some q /\
    value (run (getPollById pollId) (isolated s g') w')
    = {| PollResult.poll :=
           Some {| Poll.id := Poll.id p; Poll.user_id := Poll.user_id p;
                   Poll.question := q;
                   Poll.options := filter Boolean (options_of formData);
                   Poll.created_at := Poll.created_at p |};
         PollResult.error := None |}.
Proof.
  intros Hpk Hin Hid Hu Hok Hg w'.
  destruct (updatePoll_success_inv pollId formData s g w Hok)
    as (u & q & Hu' & He & Hq & _ & _ & _ & Hw').
  fold w' in Hw'. rewrite Hu in Hu'. injection Hu' as <-.
  exists q. split; [exact Hq|].
  destruct (getPollById_outcome pollId s g' w') as [_ ->].
  rewrite He, Hu, Hg, Hw'. simpl.
  set (f := fun p0 : Poll.row => if poll_matches _ p0 then _ else p0).
  assert (Hids : map Poll.id (map f (polls w)) = map Poll.id (polls w)).
  { rewrite map_map. apply map_ext. intros p0. unfold f.
    now destruct (poll_matches _ p0). }
  assert (Hfp : f p = {| Poll.id := Poll.id p; Poll.user_id := Poll.user_id p;
                         Poll.question := q;
                         Poll.options := filter Boolean (options_of formData);
                         Poll.created_at := Poll.created_at p |}).
  { unfold f. replace (poll_matches _ p) with true; [reflexivity|].
    symmetry. now apply poll_matches_id_owner. }
  rewrite (@filter_unique_id pollId (Poll.user_id p) (f p) (map f (polls w))).
  - now rewrite Hfp.
  - now rewrite Hids.
  - now apply in_map.
  - now rewrite Hfp.
  - now rewrite Hfp.
Qed.

Lemma updated_poll_is_read_back_witness :
  polls_pkey three_polls /\
  exists q,
    question_of (form (js "Dogs?") [js "Yes"; js "No"]) = Some q /\
    value (run (getPollById (js "p3")) (isolated (signed_in "alice") quiet)
               (final (run (updatePoll (js "p3") (form (js "Dogs?") [js "Yes"; js "No"]))
                           (isolated (signed_in "alice") quiet) three_polls)))
    = {| PollResult.poll :=
           Some {| Poll.id := js "p3"; Poll.user_id := js "alice";
                   Poll.question := q;
                   Poll.options := [js "Yes"; js "No"];
                   Poll.created_at := 3 |};
         PollResult.error := None |}.
Proof.
  assert (Hpk : polls_pkey three_polls).
  { unfold polls_pkey. simpl.
    repeat constructor; simpl; intros H;
      repeat (destruct H as [H|H]; [vm_compute in H; discriminate H|]);
      exact H. }
  split; [exact Hpk|].
  apply (@updated_poll_is_read_back (js "p3") (form (js "Dogs?") [js "Yes"; js "No"])
           (signed_in "alice") quiet quiet three_polls
           {| Poll.id := js "p3"; Poll.user_id := js "alice";
              Poll.question := js "Cats?";
              Poll.options := [js "Yes"; js "No"; js "Both"];
              Poll.created_at := 3 |} Hpk).
  - right; right; left; reflexivity.
  - reflexivity.
  - reflexivity.
  - reflexivity.
  - reflexivity.
Defined.

(** X16: [updatePoll] does not look at the votes: when the owner replaces the
    options of a poll by a shorter list, a vote for an option index the
    new list no longer has stays in [votes], pointing outside the options
    of its poll (the index [submitVote] would reject). *)
Theorem updatePoll_keeps_votes_for_removed_options pollId formData s g w p v :
  In p (polls w) -> Poll.id p = pollId ->
  AuthResponse.user s = Some (Poll.user_id p) ->
  In v (votes w) -> Vote.poll_id v = pollId ->
  (Z.of_nat (length (filter Boolean (options_of formData))) <= Vote.option_index v)%Z ->
  Act.error (value (run (updatePoll pollId formData) (isolated s g) w)) = None ->
  let w' := final (run (updatePoll pollId formData) (isolated s g) w) in
  In v (votes w') /\
  exists p', In p' (polls w') /\ Poll.id p' = Vote.poll_id v /\
             Poll.user_id p' = Poll.user_id p /\
             (Z.of_nat (length (Poll.options p')) <= Vote.option_index v)%Z.
Proof.
  intros Hin Hid Hu Hv Hvid Hidx Hok w'.
  destruct (updatePoll_success_inv pollId formData s g w Hok)
    as (u & q & Hu' & _ & _ & _ & _ & _ & Hw').
  fold w' in Hw'. rewrite Hu in Hu'. injection Hu' as <-.
  rewrite Hw'. simpl. split; [exact Hv|].
  eexists. split; [apply in_map, Hin|].
  replace (poll_matches _ p) with true
    by (symmetry; now apply poll_matches_id_owner).
  simpl. repeat split; [congruence | exact Hidx].
Qed.

Lemma updatePoll_keeps_votes_for_removed_options_witness :
  let voted :=
    {| polls := polls three_polls;
       votes := [{| Vote.id := js "v2"; Vote.poll_id := js "p3";
                    Vote.user_id := js "bob"; Vote.option_index := 2;
                    Vote.created_at := 5 |}];
       revalidated := [] |} in
  let w' := final (run (updatePoll (js "p3") (form (js "Cats?") [js "Yes"; js "No"]))
                       (isolated (signed_in "alice") quiet) voted) in
  map Vote.option_index (votes w') = [2%Z] /\
  exists p', In p' (polls w') /\ Poll.id p' = js "p3" /\
             Poll.user_id p' = js "alice" /\
             (Z.of_nat (length (Poll.options p')) <= 2)%Z.
Proof.
  intros voted w'. split; [reflexivity|].
  destruct (@updatePoll_keeps_votes_for_removed_options (js "p3")
              (form (js "Cats?") [js "Yes"; js "No"]) (signed_in "alice") quiet voted
              {| Poll.id := js "p3"; Poll.user_id := js "alice";
                 Poll.question := js "Cats?";
                 Poll.options := [js "Yes"; js "No"; js "Both"];
                 Poll.created_at := 3 |}
              {| Vote.id := js "v2"; Vote.poll_id := js "p3";
                 Vote.user_id := js "bob"; Vote.option_index := 2;
                 Vote.created_at := 5 |}) as [_ H].
  - right; right; left; reflexivity.
  - reflexivity.
  - reflexivity.
  - left; reflexivity.
  - reflexivity.
  - vm_compute. discriminate.
  - reflexivity.
  - exact H.
Defined.

(* ================================================================== *)
(** ** The option rules of the form *)
(* ================================================================== *)

Lemma not_all_option_ok (l : list jsstring) :
  ~ Forall option_ok l
  <-> exists o, In o l /\ (length (trim o) = 0 \/ 100 < length o).
Proof.
  induction l as [|o l IH].
  - split; [intros H; exfalso; apply H; constructor | intros (o & [] & _)].
  - split.
    + intros H.
      destruct (Nat.eq_dec (length (trim o)) 0) as [E|E];
        [exists o; split; [now left | now left]|].
      destruct (le_lt_dec (length o) 100) as [L|L];
        [|exists o; split; [now left | now right]].
      destruct (proj1 IH) as (o' & Ho' & Hbad).
      * intros Hl. apply H. constructor; [unfold option_ok; lia | exact Hl].
      * exists o'. split; [now right | exact Hbad].
    + intros (o' & [<-|Hin] & Hbad) H; inversion H as [|? ? [H1 H2] Hl]; subst.
      * lia.
      * apply (proj2 IH); [exists o'; tauto | exact Hl].
Qed.

(** X17: With a question that passes, the two option errors of [createPoll]
    and [updatePoll] are decided by the non-empty submitted entries alone:
    the two-option error is returned exactly when there are fewer than two
    of them, the per-option error exactly when there are at least two and
    one of them is blank or longer than 100 code units. *)
Theorem option_rules formData pollId env w q :
  question_of formData = Some q -> question_ok q ->
  let c := Act.error (value (run (createPoll formData) env w)) in
  let u := Act.error (value (run (updatePoll pollId formData) env w)) in
  let entries := filter Boolean (options_of formData) in
  let one_bad := exists o, In o entries /\ (length (trim o) = 0 \/ 100 < length o) in
  (c = Some InsufficientOptions <-> length entries < 2) /\
  (u = Some InsufficientOptions <-> length entries < 2) /\
  (c = Some InvalidOption <-> 2 <= length entries /\ one_bad) /\
  (u = Some InvalidOption <-> 2 <= length entries /\ one_bad).
Proof.
  intros Hq Hok c u entries one_bad. subst c u one_bad entries.
  set (entries := filter Boolean (options_of formData)) in *.
  assert (Hdiff : Some InsufficientOptions <> Some InvalidOption)
    by (intros H; vm_compute in H; discriminate H).
  destruct (Nat.lt_ge_cases (length entries) 2) as [Hn|Hn].
  { destruct (rejects_too_few formData pollId env w Hq Hok Hn) as [-> ->].
    change (Act.error (value (returned (failure "Please provide at least two options.") w)))
      with (Some InsufficientOptions).
    split; [|split; [|split]]; split; try (intros _; exact Hn);
      try reflexivity; try (intros H; now contradiction Hdiff); intros [H _]; lia. }
  destruct (for_of_options entries) as [r|] eqn:Ef.
  - assert (Hbad : ~ Forall option_ok entries)
      by (rewrite <- for_of_options_None; congruence).
    destruct (rejects_option formData pollId env w Hq Hok Hn Hbad) as [-> ->].
    apply not_all_option_ok in Hbad.
    change (Act.error (value (returned (failure "Each option must be between 1 and 100 characters.") w)))
      with (Some InvalidOption).
    split; [|split; [|split]]; split; try (intros _; split; assumption);
      try reflexivity; try (intros H; symmetry in H; now contradiction Hdiff);
      intros H; lia.
  - apply for_of_options_None in Ef.
    assert (Ha : accepted formData) by (exists q; tauto).
    pose proof (createPoll_accepted_error env w Ha) as Hc.
    pose proof (updatePoll_accepted_error pollId env w Ha) as Hu.
    assert (Hcv : forall m, ValidationError m ->
                Act.error (value (run (createPoll formData) env w)) <> Some m).
    { intros m Hm. eapply (after_validation_not_validation (action := "create"));
        [left; reflexivity | exact Hc | exact Hm]. }
    assert (Huv : forall m, ValidationError m ->
                Act.error (value (run (updatePoll pollId formData) env w)) <> Some m).
    { intros m Hm. eapply (after_validation_not_validation (action := "update"));
        [right; reflexivity | exact Hu | exact Hm]. }
    assert (V1 : ValidationError InsufficientOptions) by (right; left; reflexivity).
    assert (V2 : ValidationError InvalidOption) by (right; right; reflexivity).
    assert (Hgood : ~ exists o, In o entries /\
                                (length (trim o) = 0 \/ 100 < length o)).
    { intros H. now apply (proj2 (not_all_option_ok entries)). }
    split; [|split; [|split]]; split;
      try (intros H; exfalso;
           first [exact (Hcv _ V1 H) | exact (Hcv _ V2 H)
                 | exact (Huv _ V1 H) | exact (Huv _ V2 H)]);
      try (intros H; lia); intros [_ H]; contradiction.
Qed.

Lemma option_rules_witness :
  question_ok (js "Color?") /\
  Act.error (value (run (createPoll (form (js "Color?") [js "Red"; js " "]))
                        (isolated (signed_in "u1") quiet) no_polls))
  = Some InvalidOption.
Proof.
  assert (Hok : question_ok (js "Color?")) by (unfold question_ok; vm_compute; lia).
  split; [exact Hok|].
  apply (@option_rules (form (js "Color?") [js "Red"; js " "]) (js "p1")
           (isolated (signed_in "u1") quiet) no_polls (js "Color?") eq_refl Hok).
  split; [vm_compute; lia|].
  exists (js " "). split; [right; left; reflexivity | left; reflexivity].
Defined.

(* ================================================================== *)
(** ** Casting a vote *)
(* ================================================================== *)

Lemma filter_unique_by_id pollId p l :
  NoDup (map Poll.id l) -> In p l -> Poll.id p = pollId ->
  filter (poll_matches [poll_id_eq pollId]) l = [p].
Proof.
  intros Hnd Hin Hid. induction l as [|x l IH]; [destruct Hin|].
  simpl in Hnd. inversion Hnd as [|? ? Hx Hl]; subst. simpl.
  rewrite poll_matches_id. destruct Hin as [->|Hin].
  - rewrite str_eqb_refl. f_equal. apply filter_none. intros y Hy.
    rewrite poll_matches_id. apply str_eqb_neq. intros E. apply Hx.
    rewrite <- E. now apply in_map.
  - replace (str_eqb _ _) with false; [now apply IH|].
    symmetry. apply str_eqb_neq. intros E. apply Hx. rewrite E. now apply in_map.
Qed.

(** X18: For a signed-in voter and an existing poll whose lookup does not fail,
    [submitVote] answers "Invalid option selected." exactly when the option
    index is negative or not below the number of options of the poll; it
    then returns after the poll lookup, before the votes are read or
    written. *)
Theorem submitVote_option_index_bounds pollId i s g w poll :
  AuthResponse.user s <> None -> pollId <> [] ->
  polls_pkey w -> In poll (polls w) -> Poll.id poll = pollId ->
  fault (g 1) = None ->
  let o := run (submitVote pollId i) (isolated s g) w in
  let out_of_range := (i < 0 \/ Z.of_nat (length (Poll.options poll)) <= i)%Z in
  (Act.error (value o) = Some (js "Invalid option selected.") <-> out_of_range) /\
  (out_of_range -> final o = w /\ length (trace o) = 2).
Proof.
  intros Hs Hid Hpk Hin Hpid Hg o out_of_range. subst o out_of_range.
  unfold run, submitVote. quiet_step.
  destruct (AuthResponse.user s) as [u|]; [|contradiction]. quiet_step.
  destruct pollId as [|c pollId']; [contradiction|]. quiet_step.
  rewrite Hg. quiet_step.
  rewrite (@filter_unique_by_id (c :: pollId') poll (polls w) Hpk Hin Hpid).
  quiet_step.
  destruct ((i <? 0)%Z || (i >=? Z.of_nat (length (Poll.options poll)))%Z) eqn:E.
  - rewrite orb_true_iff, Z.ltb_lt, Z.geb_le in E. quiet_step.
    repeat split; try reflexivity; intros _; exact E.
  - rewrite orb_false_iff, Z.ltb_ge, Z.geb_leb, Z.leb_gt in E.
    split; [|intros H; lia].
    split; [|intros H; lia].
    intros H. exfalso. revert H.
    split_run; intros H; vm_compute in H; discriminate H.
Qed.

Lemma submitVote_option_index_bounds_witness :
  polls_pkey three_polls /\
  Act.error (value (run (submitVote (js "p3") 3) (isolated (signed_in "bob") quiet)
                        three_polls))
  = Some (js "Invalid option selected.").
Proof.
  assert (Hpk : polls_pkey three_polls).
  { unfold polls_pkey. simpl.
    repeat constructor; simpl; intros H;
      repeat (destruct H as [H|H]; [vm_compute in H; discriminate H|]);
      exact H. }
  split; [exact Hpk|].
  apply (@submitVote_option_index_bounds (js "p3") 3%Z (signed_in "bob") quiet
           three_polls
           {| Poll.id := js "p3"; Poll.user_id := js "alice";
              Poll.question := js "Cats?";
              Poll.options := [js "Yes"; js "No"; js "Both"];
              Poll.created_at := 3 |}).
  - discriminate.
  - discriminate.
  - exact Hpk.
  - right; right; left; reflexivity.
  - reflexivity.
  - reflexivity.
  - right. simpl. lia.
Defined.

(** X19: Any signed-in principal, owner or not, can vote once on any existing
    poll: with an option index in range, no earlier vote of the principal
    on the poll, an engine that does not fail and a fresh row id,
    [submitVote] succeeds and appends exactly the principal's vote for that
    option, leaving everything else as it was. *)
Theorem submitVote_records_vote pollId i s g w poll user_id :
  AuthResponse.user s = Some user_id -> pollId <> [] ->
  polls_pkey w -> In poll (polls w) -> Poll.id poll = pollId ->
  (0 <= i < Z.of_nat (length (Poll.options poll)))%Z ->
  votes_of pollId user_id w = 0 ->
  (forall v, In v (votes w) -> Vote.id v <> new_id (g 3)) ->
  fault (g 1) = None -> fault (g 2) = None -> fault (g 3) = None ->
  let o := run (submitVote pollId i) (isolated s g) w in
  value o = success /\
  final o
  = set_votes w (votes w ++
                 [{| Vote.id := new_id (g 3); Vote.poll_id := pollId;
                     Vote.user_id := user_id; Vote.option_index := i;
                     Vote.created_at := now (g 3) |}]).
Proof.
  intros Hu Hid Hpk Hin Hpid Hi Hnone Hfresh G1 G2 G3 o. subst o.
  assert (Hf : filter (vote_matches [vote_poll_id_eq pollId; vote_user_id_eq user_id])
                      (votes w) = []).
  { unfold votes_of in Hnone. now destruct (filter _ _). }
  assert (Hex : existsb (fun p => str_eqb (Poll.id p) pollId) (polls w) = true).
  { apply existsb_exists. exists poll. split; [exact Hin | now apply str_eqb_eq]. }
  assert (Hvid : existsb (fun v => str_eqb (Vote.id v) (new_id (g 3))) (votes w)
                 = false).
  { apply not_true_iff_false. intros E. apply existsb_exists in E.
    destruct E as (v & Hv & E). apply str_eqb_eq in E. exact (Hfresh v Hv E). }
  unfold run, submitVote. quiet_step. rewrite Hu. quiet_step.
  destruct pollId as [|c pollId']; [contradiction|]. quiet_step.
  rewrite G1. quiet_step.
  rewrite (@filter_unique_by_id (c :: pollId') poll (polls w) Hpk Hin Hpid).
  quiet_step.
  replace ((i <? 0)%Z || (i >=? Z.of_nat (length (Poll.options poll)))%Z)
    with false
    by (symmetry; rewrite orb_false_iff, Z.ltb_ge, Z.geb_leb, Z.leb_gt; lia).
  quiet_step. rewrite G2. quiet_step. rewrite Hf. quiet_step.
  rewrite G3. quiet_step. rewrite Hex. quiet_step.
  rewrite (proj2 (existsb_false_filter _ _) Hf). quiet_step.
  rewrite Hvid. quiet_step. split; reflexivity.
Qed.

Lemma submitVote_records_vote_witness :
  AuthResponse.user (signed_in "carol") = Some (js "carol") /\
  value (run (submitVote (js "p2") 1) (isolated (signed_in "carol") quiet)
             three_polls) = success /\
  length (votes (final (run (submitVote (js "p2") 1)
                            (isolated (signed_in "carol") quiet) three_polls))) = 2.
Proof.
  split; [reflexivity|].
  destruct (@submitVote_records_vote (js "p2") 1%Z (signed_in "carol") quiet
              three_polls
              {| Poll.id := js "p2"; Poll.user_id := js "bob";
                 Poll.question := js "Tea or coffee?";
                 Poll.options := [js "Tea"; js "Coffee"];
                 Poll.created_at := 2 |} (js "carol")) as [Hv Hf];
    try reflexivity; try discriminate.
  - unfold polls_pkey. simpl.
    repeat constructor; simpl; intros H;
      repeat (destruct H as [H|H]; [vm_compute in H; discriminate H|]);
      exact H.
  - right; left; reflexivity.
  - simpl. lia.
  - intros v [<-|[]] H. vm_compute in H. discriminate H.
  - split; [exact Hv|]. rewrite Hf. reflexivity.
Defined.

(* ================================================================== *)
(** ** The option fields of the two forms *)
(* ================================================================== *)

Lemma map_index_length {A B} (f : A -> nat -> B) k l :
  length (map_index f k l) = length l.
Proof. revert k; induction l as [|x l IH]; intros k; simpl; [|rewrite IH]; reflexivity. Qed.

Lemma map_index_nth_error {A B} (f : A -> nat -> B) l :
  forall k i, nth_error (map_index f k l) i
              = option_map (fun x => f x (k + i)) (nth_error l i).
Proof.
  induction l as [|x l IH]; intros k [|i]; simpl; try reflexivity.
  - now rewrite Nat.add_0_r.
  - rewrite IH. now rewrite Nat.add_succ_r.
Qed.

Lemma filter_index_beyond {A} (t : list A) :
  forall j m, m < j -> filter_index (fun _ i => negb (i =? m)) j t = t.
Proof.
  induction t as [|z t IH]; intros j m Hj; simpl; [reflexivity|].
  replace (j =? m) with false by (symmetry; apply Nat.eqb_neq; lia).
  simpl. f_equal. apply IH. lia.
Qed.

Lemma filter_index_removes {A} (l : list A) :
  forall k idx, filter_index (fun _ i => negb (i =? k + idx)) k l
                = firstn idx l ++ skipn (S idx) l.
Proof.
  induction l as [|x l IH]; intros k idx.
  - now destruct idx.
  - destruct idx as [|idx].
    + cbn [filter_index firstn skipn app]. rewrite Nat.add_0_r, Nat.eqb_refl.
      cbn [negb]. apply filter_index_beyond. lia.
    + cbn [filter_index firstn skipn app].
      replace (k =? k + S idx) with false by (symmetry; apply Nat.eqb_neq; lia).
      cbn [negb]. simpl. f_equal. rewrite Nat.add_succ_r.
      exact (IH (S k) idx).
Qed.

(** X21: The option-field handlers of both forms: changing field [idx] keeps
    the number of fields and replaces the value of that field only;
    removing field [idx] takes exactly that field out when more than two
    fields are shown, and does nothing when only two are left (or when no
    such field exists). *)
Theorem option_field_handlers idx value opts :
  length (handleOptionChange idx value opts) = length opts /\
  (forall i, nth_error (handleOptionChange idx value opts) i
             = if i =? idx
               then option_map (fun _ => value) (nth_error opts i)
               else nth_error opts i) /\
  removeOption opts idx opts
  = if 2 <? length opts then firstn idx opts ++ skipn (S idx) opts else opts.
Proof.
  unfold handleOptionChange, removeOption. split; [apply map_index_length|]. split.
  - intros i. rewrite map_index_nth_error. simpl.
    destruct (i =? idx); destruct (nth_error opts i); reflexivity.
  - destruct (2 <? length opts); [|reflexivity].
    exact (filter_index_removes opts 0 idx).
Qed.

Lemma on_event_keeps_two opts ev :
  2 <= length opts -> 2 <= length (on_event opts ev).
Proof.
  intros H. destruct ev as [idx value| |idx]; simpl.
  - unfold handleOptionChange. now rewrite map_index_length.
  - unfold addOption. rewrite length_app. simpl. lia.
  - unfold removeOption. destruct (2 <? length opts) eqn:E; [|exact H].
    apply Nat.ltb_lt in E.
    pose proof (filter_index_removes opts 0 idx) as Hr. cbn [Nat.add] in Hr.
    rewrite Hr, length_app, length_firstn, length_skipn. lia.
Qed.

(** X22: Both forms never show fewer than two option fields: starting from at
    least two (the create form starts with two empty ones), any sequence
    of changing, adding and removing fields, each handled in the render of
    the state it acts on, leaves at least two. *)
Theorem option_fields_never_below_two events opts :
  2 <= length opts ->
  2 <= length (fold_left on_event events opts).
Proof.
  revert opts. induction events as [|ev events IH]; intros opts H; simpl.
  - exact H.
  - apply IH. now apply on_event_keeps_two.
Qed.

Lemma option_fields_never_below_two_witness :
  2 <= length [js ""; js ""] /\
  2 <= length (fold_left on_event
                 [add_option; remove_option 0; remove_option 0;
                  change_option 1 (js "Blue"); remove_option 5]
                 [js ""; js ""]).
Proof.
  split; [simpl; lia|].
  apply (@option_fields_never_below_two
           [add_option; remove_option 0; remove_option 0;
            change_option 1 (js "Blue"); remove_option 5] [js ""; js ""]).
  simpl. lia.
Defined.

(* ================================================================== *)
(** ** Submitting the two forms *)
(* ================================================================== *)

Lemma get_delete_other formData name other :
  str_eqb name other = false ->
  FormData.get (FormData_delete formData other) name = FormData.get formData name.
Proof.
  intros Hne. induction formData as [|[n v] rest IH]; simpl; [reflexivity|].
  destruct (str_eqb n other) eqn:E.
  - apply str_eqb_eq in E. subst n.
    replace (str_eqb other name) with false; [exact IH|].
    symmetry. apply str_eqb_neq. intros ->. rewrite str_eqb_refl in Hne.
    discriminate Hne.
  - simpl. destruct (str_eqb n name); [reflexivity | exact IH].
Qed.

Lemma get_set_same formData name value :
  FormData.get (FormData_set formData name value) name = Some value.
Proof.
  induction formData as [|[n v] rest IH]; simpl.
  - now rewrite str_eqb_refl.
  - destruct (str_eqb n name) eqn:E; simpl; [now rewrite str_eqb_refl|].
    now rewrite E.
Qed.

Lemma getAll_delete_same formData name :
  FormData.getAll (FormData_delete formData name) name = [].
Proof.
  unfold FormData.getAll.
  induction formData as [|[n v] rest IH]; simpl; [reflexivity|].
  destruct (str_eqb n name) eqn:E; simpl; [exact IH|]. now rewrite E.
Qed.

Lemma get_app_found formData more name value :
  FormData.get formData name = Some value ->
  FormData.get (formData ++ more) name = Some value.
Proof.
  induction formData as [|[n v] rest IH]; simpl; [discriminate|].
  destruct (str_eqb n name); [trivial | exact IH].
Qed.

Lemma fold_left_append name options formData :
  fold_left (fun fd opt => FormData_append fd name opt) options formData
  = formData ++ map (fun opt => (name, opt)) options.
Proof.
  revert formData. induction options as [|o options IH]; intros formData; simpl.
  - now rewrite app_nil_r.
  - rewrite IH. unfold FormData_append. now rewrite <- app_assoc.
Qed.

Lemma getAll_app formData more name :
  FormData.getAll (formData ++ more) name
  = FormData.getAll formData name ++ FormData.getAll more name.
Proof. unfold FormData.getAll. now rewrite filter_app, map_app. Qed.

Lemma getAll_own name options :
  FormData.getAll (map (fun opt => (name, opt)) options) name = options.
Proof.
  unfold FormData.getAll. induction options as [|o options IH]; simpl;
    [reflexivity|].
  rewrite str_eqb_refl. simpl. now rewrite IH.
Qed.

Lemma form_entries question options :
  question_of (form question options) = Some question /\
  options_of (form question options) = options.
Proof.
  unfold question_of, options_of, form. split.
  - reflexivity.
  - exact (getAll_own (js "options") options).
Qed.

Lemma EditPollForm_formData_entries question options formData :
  question_of (EditPollForm_formData question options formData) = Some question /\
  options_of (EditPollForm_formData question options formData) = options.
Proof.
  unfold question_of, options_of, EditPollForm_formData.
  rewrite fold_left_append. split.
  - apply get_app_found. rewrite get_delete_other by reflexivity.
    apply get_set_same.
  - rewrite getAll_app, getAll_delete_same. simpl. apply getAll_own.
Qed.

(** X23: [EditPollForm] submits its state, not the fields of the page: whatever
    entries the browser put into the form data, [updatePoll] reads the
    question of the state under "question" and the options of the state, in
    their order, under "options"; so it runs as on a form with exactly
    these entries, and the outcome of the form action does not depend on
    the submitted fields. *)
Theorem EditPollForm_submits_its_state poll_id question options formData :
  question_of (EditPollForm_formData question options formData) = Some question /\
  options_of (EditPollForm_formData question options formData) = options /\
  updatePoll poll_id (EditPollForm_formData question options formData)
  = updatePoll poll_id (form question options) /\
  forall other env w,
    run (EditPollForm_action poll_id question options formData) env w
    = run (EditPollForm_action poll_id question options other) env w.
Proof.
  destruct (EditPollForm_formData_entries question options formData) as [Hq Ho].
  assert (Hsame : forall fd fd',
             question_of fd = question_of fd' -> options_of fd = options_of fd' ->
             updatePoll poll_id fd = updatePoll poll_id fd').
  { intros fd fd' H1 H2. unfold updatePoll.
    change (FormData.get fd (js "question")) with (question_of fd).
    change (FormData.get fd' (js "question")) with (question_of fd').
    change (FormData.getAll fd (js "options")) with (options_of fd).
    change (FormData.getAll fd' (js "options")) with (options_of fd').
    now rewrite H1, H2. }
  split; [exact Hq|]. split; [exact Ho|]. split.
  - destruct (form_entries question options) as [Hq' Ho'].
    apply Hsame; congruence.
  - intros other env w. unfold EditPollForm_action.
    destruct (EditPollForm_formData_entries question options other) as [Hq' Ho'].
    rewrite (Hsame (EditPollForm_formData question options formData)
                   (EditPollForm_formData question options other));
      [reflexivity | congruence | congruence].
Qed.

Lemma literal_is_truthy e : generic e -> truthy e = match e with Some _ => true | None => false end.
Proof.
  destruct e as [m|]; [|reflexivity]. simpl. intros H.
  repeat (destruct H as [<-|H]; [reflexivity|]). destruct H.
Qed.

Lemma failed_form_action_writes_nothing formData id s g w :
  (Act.error (value (run (createPoll formData) (isolated s g) w)) <> None ->
   final (run (createPoll formData) (isolated s g) w) = w) /\
  (Act.error (value (run (updatePoll id formData) (isolated s g) w)) <> None ->
   final (run (updatePoll id formData) (isolated s g) w) = w).
Proof.
  write_cases formData id s g w; simpl; split; intros H; try reflexivity;
    now contradiction H.
Qed.

(** X24: After its action a form shows what happened.  [PollCreateForm] shows
    the success banner and schedules the redirect to [/polls] exactly when
    [createPoll] stored the poll; otherwise it shows the non-empty message
    of [createPoll], no banner, no redirect, and nothing was stored.
    [EditPollForm] does the same with [updatePoll]: with an error nothing
    was changed; with the banner, every poll of the caller with the
    edited id holds the question and the non-empty options of the form
    state. *)
Theorem forms_show_what_happened formData poll_id question options s g w :
  let c := run (PollCreateForm_action formData) (isolated s g) w in
  let e := run (EditPollForm_action poll_id question options formData)
               (isolated s g) w in
  match FormView.error (value c) with
  | Some m =>
      m <> [] /\ FormView.success (value c) = false /\
      FormView.redirect (value c) = None /\ final c = w
  | None =>
      FormView.success (value c) = true /\
      FormView.redirect (value c) = Some (js "/polls") /\
      exists row, polls (final c) = polls w ++ [row] /\
                  AuthResponse.user s = Some (Poll.user_id row) /\
                  question_of formData = Some (Poll.question row)
  end /\
  match FormView.error (value e) with
  | Some m =>
      m <> [] /\ FormView.success (value e) = false /\
      FormView.redirect (value e) = None /\ final e = w
  | None =>
      FormView.success (value e) = true /\
      FormView.redirect (value e) = Some (js "/polls") /\
      votes (final e) = votes w /\
      forall p, In p (polls w) -> Poll.id p = poll_id ->
                AuthResponse.user s = Some (Poll.user_id p) ->
                In {| Poll.id := Poll.id p; Poll.user_id := Poll.user_id p;
                      Poll.question := question;
                      Poll.options := filter Boolean options;
                      Poll.created_at := Poll.created_at p |} (polls (final e))
  end.
Proof.
  intros c e. subst c e. unfold PollCreateForm_action, EditPollForm_action, run.
  rewrite !run_from_bind. split.
  - pose proof (createPoll_generic formData (isolated s g) w) as Hgen.
    pose proof (proj1 (failed_form_action_writes_nothing formData [] s g w)) as Hfail.
    pose proof (createPoll_success_inv formData s g w) as Hinv.
    unfold run in Hgen, Hfail, Hinv.
    destruct (run_from (createPoll formData) (isolated s g) 0 w) as [r wf tr].
    simpl in *. unfold after_action. rewrite (@literal_is_truthy _ Hgen).
    destruct (Act.error r) as [m|]; simpl.
    + repeat split; try (apply Hfail; discriminate).
      intros ->. pose proof (@literal_is_truthy _ Hgen) as T. discriminate T.
    + destruct (Hinv eq_refl) as (u & q & Hu & _ & Hq & _ & _ & _ & _ & ->).
      repeat split. eexists. simpl. repeat split; assumption.
  - set (fd := EditPollForm_formData question options formData).
    destruct (EditPollForm_formData_entries question options formData) as [Eq Eo].
    fold fd in Eq, Eo.
    pose proof (updatePoll_generic poll_id fd (isolated s g) w) as Hgen.
    pose proof (proj2 (failed_form_action_writes_nothing fd poll_id s g w)) as Hfail.
    pose proof (updatePoll_success_inv poll_id fd s g w) as Hinv.
    unfold run in Hgen, Hfail, Hinv.
    destruct (run_from (updatePoll poll_id fd) (isolated s g) 0 w) as [r wf tr].
    simpl in *. unfold after_action. rewrite (@literal_is_truthy _ Hgen).
    destruct (Act.error r) as [m|]; simpl.
    + repeat split; try (apply Hfail; discriminate).
      intros ->. pose proof (@literal_is_truthy _ Hgen) as T. discriminate T.
    + destruct (Hinv eq_refl) as (u & q & Hu & _ & Hq & _ & _ & _ & ->).
      rewrite Eq in Hq. injection Hq as <-. rewrite Eo.
      repeat split. intros p Hin Hid Hown. simpl.
      rewrite Hu in Hown. injection Hown as ->.
      apply in_map_iff. exists p. split; [|exact Hin].
      replace (poll_matches _ p) with true; [reflexivity|].
      symmetry. now apply poll_matches_id_owner.
Qed.

(** X20: [submitVote] succeeds only for a signed-in principal, on a poll id
    that is not empty and names exactly one stored poll, with an option
    index within the options that poll has at that moment, and only when
    the principal has no vote on the poll yet. *)
Theorem submitVote_success_requires pollId i s g w :
  Act.error (value (run (submitVote pollId i) (isolated s g) w)) = None ->
  exists user_id poll,
    AuthResponse.user s = Some user_id /\ pollId <> [] /\
    In poll (polls w) /\ Poll.id poll = pollId /\
    (forall p, In p (polls w) -> Poll.id p = pollId -> p = poll) /\
    (0 <= i < Z.of_nat (length (Poll.options poll)))%Z /\
    votes_of pollId user_id w = 0.
Proof.
  unfold run, submitVote, votes_of. split_run; try discriminate.
  all: intros _.
  all: match goal with
       | Hf : filter (poll_matches _) _ = [?p],
         Hu : AuthResponse.user _ = Some ?u |- _ =>
           exists u, p;
           pose proof (in_eq p []) as Hin; rewrite <- Hf in Hin;
           apply filter_In in Hin; destruct Hin as [Hin Hm];
           rewrite poll_matches_id, str_eqb_eq in Hm
       end.
  all: repeat match goal with |- _ /\ _ => split end;
    try assumption; try reflexivity.
  all: try match goal with
           | H : negb (Boolean _) = false |- _ <> [] =>
               intros ->; discriminate H
           | H : (_ <? 0)%Z || _ = false |- _ =>
               rewrite orb_false_iff, Z.ltb_ge, Z.geb_leb, Z.leb_gt in H; lia
           | H : existsb (vote_matches _) _ = false |- length _ = 0 =>
               apply existsb_false_filter in H; now rewrite H
           end.
  all: intros p' Hp' Hid';
    match goal with
    | Hf : filter (poll_matches _) _ = [?p] |- _ =>
        assert (Hin' : In p' [p])
          by (rewrite <- Hf; apply filter_In; split; [exact Hp'|];
              rewrite poll_matches_id; now apply str_eqb_eq);
        destruct Hin' as [<-|[]]; reflexivity
    end.
Qed.

Lemma submitVote_success_requires_witness :
  Act.error (value (run (submitVote (js "p3") 2) (isolated (signed_in "bob") quiet)
                        three_polls)) = None /\
  exists user_id poll,
    AuthResponse.user (signed_in "bob") = Some user_id /\ js "p3" <> [] /\
    In poll (polls three_polls) /\ Poll.id poll = js "p3" /\
    (forall p, In p (polls three_polls) -> Poll.id p = js "p3" -> p = poll) /\
    (0 <= 2 < Z.of_nat (length (Poll.options poll)))%Z /\
    votes_of (js "p3") user_id three_polls = 0.
Proof.
  split; [reflexivity|].
  apply (@submitVote_success_requires (js "p3") 2%Z (signed_in "bob") quiet
           three_polls).
  reflexivity.
Defined.
